(** * SME-IR-TOOLKIT: the three command-line tools, embedded and verified

    - [EmailChecker]: src/checks/email_dmarc_spf_checker.py
    - [Scorer]:       src/score_ir_readiness.py
    - [Raci]:         src/tools/generator/build_raci_from_yaml.py

    Python [str] values are modelled as [string] (ASCII text, which is what
    dnspython's [to_text] yields for TXT data; where a tool reads text of
    any kind, a statement that depends on letter case or white space says
    that it is about ASCII text), Python [int] as [Z], Python [float] as
    IEEE binary64 through [SpecFloat], and dictionaries as stdpp's [gmap]
    where only lookups and sums are observed. *)

From Stdlib Require Import ZArith Ascii String List Bool SpecFloat.
From stdpp Require Import base option list strings gmap fin_maps sorting.

Local Open Scope string_scope.

(** [l.append(x)] on a Python list. *)
Definition append {A} (l : list A) (x : A) : list A := (l ++ [x])%list.

(** ** Python string methods used by the tools *)

Module PyStr.

Definition code (c : ascii) : N := N_of_ascii c.

(** Text made of ASCII characters only.  The methods below are those of
    [str] on such text: on other text [str.lower], [str.upper] and
    [str.strip] also act on letters and white space outside ASCII. *)
Definition is_ascii_char (c : ascii) : bool := (code c <? 128)%N.

Fixpoint is_ascii (s : string) : bool :=
  match s with
  | EmptyString => true
  | String c s' => is_ascii_char c && is_ascii s'
  end.

(** [str.lower] and [str.upper] on ASCII text, character by character. *)
Definition lower_char (c : ascii) : ascii :=
  if (65 <=? code c)%N && (code c <=? 90)%N
  then ascii_of_N (code c + 32) else c.

Definition upper_char (c : ascii) : ascii :=
  if (97 <=? code c)%N && (code c <=? 122)%N
  then ascii_of_N (code c - 32) else c.

Fixpoint lower (s : string) : string :=
  match s with
  | EmptyString => EmptyString
  | String c s' => String (lower_char c) (lower s')
  end.

Fixpoint upper (s : string) : string :=
  match s with
  | EmptyString => EmptyString
  | String c s' => String (upper_char c) (upper s')
  end.

(** [s.startswith(p)]. *)
Fixpoint startswith (p s : string) : bool :=
  match p, s with
  | EmptyString, _ => true
  | String _ _, EmptyString => false
  | String a p', String b s' => if Ascii.eqb a b then startswith p' s' else false
  end.

(** [needle in s]. *)
Fixpoint contains (needle s : string) : bool :=
  startswith needle s ||
  match s with
  | EmptyString => false
  | String _ s' => contains needle s'
  end.

(** [str.isspace] on one ASCII character: TAB, LF, VT, FF, CR, the four
    separators FS, GS, RS, US, and the space. *)
Definition is_space (c : ascii) : bool :=
  ((9 <=? code c)%N && (code c <=? 13)%N)
  || ((28 <=? code c)%N && (code c <=? 32)%N).

Fixpoint lstrip_by (drop : ascii -> bool) (s : string) : string :=
  match s with
  | EmptyString => EmptyString
  | String c s' => if drop c then lstrip_by drop s' else s
  end.

Fixpoint rstrip_by (drop : ascii -> bool) (s : string) : string :=
  match s with
  | EmptyString => EmptyString
  | String c s' =>
      match rstrip_by drop s' with
      | EmptyString => if drop c then EmptyString else String c EmptyString
      | r => String c r
      end
  end.

Definition strip_by (drop : ascii -> bool) (s : string) : string :=
  rstrip_by drop (lstrip_by drop s).

(** [s.strip()]. *)
Definition strip (s : string) : string := strip_by is_space s.

Fixpoint mem_char (c : ascii) (chars : string) : bool :=
  match chars with
  | EmptyString => false
  | String d chars' => Ascii.eqb c d || mem_char c chars'
  end.

(** [s.strip(chars)]. *)
Definition strip_chars (chars s : string) : string :=
  strip_by (fun c => mem_char c chars) s.

(** [s.replace(old, new)] for a non-empty [old]: occurrences are replaced
    from the left and do not overlap; [skip] counts the characters of a
    matched occurrence that remain to be dropped. *)
Fixpoint replace_from (old new : string) (skip : nat) (s : string) : string :=
  match s with
  | EmptyString => EmptyString
  | String c s' =>
      match skip with
      | S k => replace_from old new k s'
      | O =>
          if startswith old s
          then new ++ replace_from old new (String.length old - 1) s'
          else String c (replace_from old new 0 s')
      end
  end.

Definition replace (old new s : string) : string := replace_from old new 0 s.

(** [s.split(sep)] for a one-character separator. *)
Fixpoint split (sep : ascii) (s : string) : list string :=
  match s with
  | EmptyString => [EmptyString]
  | String c s' =>
      if Ascii.eqb c sep then EmptyString :: split sep s'
      else match split sep s' with
           | [] => [String c EmptyString]
           | w :: ws => String c w :: ws
           end
  end.

(** [s.split(sep, 1)] when [sep in s]: the text before the first
    separator and the text after it; [None] when there is no separator
    (Python then returns the one-element list [[s]]). *)
Fixpoint split1 (sep : ascii) (s : string) : option (string * string) :=
  match s with
  | EmptyString => None
  | String c s' =>
      if Ascii.eqb c sep then Some (EmptyString, s')
      else match split1 sep s' with
           | Some (k, v) => Some (String c k, v)
           | None => None
           end
  end.

(** [sep.join(parts)]. *)
Fixpoint join (sep : string) (parts : list string) : string :=
  match parts with
  | [] => EmptyString
  | [p] => p
  | p :: ps => p ++ sep ++ join sep ps
  end.

(** Truthiness of a [str]: the empty string is false. *)
Definition truthy (s : string) : bool :=
  match s with EmptyString => false | String _ _ => true end.

(** The double-quote character. *)
Definition dquote : ascii := ascii_of_N 34.

End PyStr.

(** ** Email posture checker (src/checks/email_dmarc_spf_checker.py) *)

Module EmailChecker.
Import PyStr.

Record DomainEmailPosture := {
  domain : string;
  spf_present : bool;
  spf_record : string;
  spf_assessment : string;
  dmarc_present : bool;
  dmarc_record : string;
  dmarc_policy : string;
  dmarc_assessment : string;
  dkim_checked : bool;
  dkim_selector : string;
  dkim_present : bool;
  dkim_record : string;
  notes : string
}.

(** What [dns.resolver.resolve(name, "TXT")] can do: raise one of the three
    exceptions the code names, raise anything else, or answer with the
    rdata of the name, each given by its [to_text()]. *)
Inductive dns_exception :=
| NXDOMAIN
| NoAnswer
| NoNameservers
| OtherException (what : string).

Inductive dns_outcome :=
| Raises (e : dns_exception)
| Answers (rdata_texts : list string).

(** The text of one rdata as [lookup_txt_records] records it. *)
Definition quoted_gap : string := String dquote (String " " (String dquote "")).

Definition clean_txt (to_text : string) : string :=
  let txt := strip_chars (String dquote "") to_text in
  replace quoted_gap " " txt.

Definition is_spf (rec : string) : bool := startswith "v=spf1" (lower rec).
Definition is_dmarc (rec : string) : bool := startswith "v=dmarc1" (lower rec).
(** The test of the DKIM loop, as written: the needle keeps its lower-case
    [v] while the record is upper-cased. *)
Definition is_dkim (rec : string) : bool := contains "v=DKIM1" (upper rec).

(** [for rec in txt_records: if test(rec): return rec] followed by the
    code after the loop. *)
Fixpoint first_record (test : string -> bool) (txt_records : list string)
  : option string :=
  match txt_records with
  | [] => None
  | rec :: rest => if test rec then Some rec else first_record test rest
  end.

Definition assess_spf (spf : option string) : bool * string * string :=
  match spf with
  | None => (false, "", "No SPF record found.")
  | Some "" => (false, "", "No SPF record found.")
  | Some spf =>
      let record := strip spf in
      let lower := lower record in
      let parts1 :=
        if contains " -all" lower then ["Restrictive policy (-all)."]
        else if contains " ~all" lower
             then ["Soft fail policy (~all). Consider -all if mature."]
        else if contains " ?all" lower || contains "all" lower
             then ["Permissive 'all' mechanism. Review necessity."]
        else [] in
      let parts2 :=
        if contains "include:" lower
        then append parts1 "Uses include mechanisms (check third-party senders)."
        else parts1 in
      let parts3 :=
        if contains " ip4:" lower || contains " ip6:" lower
        then append parts2 "Direct IP mechanisms configured."
        else parts2 in
      let parts4 :=
        if contains " redirect=" lower
        then append parts3 "Uses redirect (advanced configuration)."
        else parts3 in
      let assessment_parts :=
        match parts4 with
        | [] => ["SPF present but could not derive specific guidance."]
        | _ => parts4
        end in
      (true, record, join " " assessment_parts)
  end.

(** One turn of the loop of [parse_dmarc_tag]. *)
Definition add_tag (tags : gmap string string) (part : string)
  : gmap string string :=
  let part := strip part in
  if contains "=" part then
    match split1 "=" part with
    | Some (k, v) => <[lower (strip k) := strip v]> tags
    | None => tags
    end
  else tags.

Definition parse_dmarc_tag (record : string) : gmap string string :=
  foldl add_tag ∅ (split ";" record).

(** [tags.get(key, default)]. *)
Definition get (tags : gmap string string) (key default : string) : string :=
  match tags !! key with Some v => v | None => default end.

Definition assess_dmarc (dmarc : option string)
  : bool * string * string * string :=
  match dmarc with
  | None => (false, "", "", "No DMARC record found.")
  | Some "" => (false, "", "", "No DMARC record found.")
  | Some dmarc =>
      let record := strip dmarc in
      let tags := parse_dmarc_tag record in
      let policy := lower (get tags "p" "") in
      let pct := get tags "pct" "100" in
      let rua := get tags "rua" "" in
      let parts1 :=
        if String.eqb policy "none"
        then ["Monitoring-only DMARC policy (p=none). Consider quarantine/reject."]
        else if String.eqb policy "quarantine"
             then ["Quarantine policy in place (p=quarantine)."]
        else if String.eqb policy "reject"
             then ["Strong enforcement policy (p=reject)."]
        else ["DMARC policy missing or unrecognised; review required."] in
      let parts2 :=
        if truthy rua
        then append parts1 "Aggregate reporting (rua) configured."
        else append parts1 "No aggregate reporting address (rua) configured." in
      let assessment_parts :=
        if negb (String.eqb pct "100")
        then append parts2 ("DMARC applies to " ++ pct ++ "% of messages (pct="
                             ++ pct ++ ").")
        else parts2 in
      (true, record, if truthy policy then policy else "(not set)",
       join " " assessment_parts)
  end.

Section WithResolver.
(** The DNS resolver the checker calls. *)
Variable resolve : string -> dns_outcome.

Definition lookup_txt_records (name : string) : list string :=
  match resolve name with
  | Answers answers => map clean_txt answers
  | Raises NXDOMAIN | Raises NoAnswer | Raises NoNameservers => []
  | Raises (OtherException _) => []
  end.

Definition get_spf_record (domain : string) : option string :=
  let txt_records := lookup_txt_records domain in
  first_record is_spf txt_records.

Definition get_dmarc_record (domain : string) : option string :=
  let name := "_dmarc." ++ domain in
  let txt_records := lookup_txt_records name in
  first_record is_dmarc txt_records.

Definition get_dkim_record (domain : string) (selector : option string)
  : bool * string * bool * string :=
  match selector with
  | None => (false, "", false, "")
  | Some "" => (false, "", false, "")
  | Some selector =>
      let name := selector ++ "._domainkey." ++ domain in
      let txt_records := lookup_txt_records name in
      match txt_records with
      | [] => (true, selector, false, "")
      | first :: _ =>
          match first_record is_dkim txt_records with
          | Some rec => (true, selector, true, rec)
          | None => (true, selector, true, first)
          end
      end
  end.

Definition check_domain (domain : string) (dkim_selector : option string)
  : DomainEmailPosture :=
  let spf := get_spf_record domain in
  let '(spf_present, spf_record, spf_assessment) := assess_spf spf in
  let dmarc := get_dmarc_record domain in
  let '(dmarc_present, dmarc_record, dmarc_policy, dmarc_assessment) :=
    assess_dmarc dmarc in
  let '(dkim_checked, dkim_sel, dkim_present, dkim_record) :=
    get_dkim_record domain dkim_selector in
  let n1 := if negb spf_present then ["SPF missing."] else [] in
  let n2 := if negb dmarc_present then append n1 "DMARC missing." else n1 in
  let n3 := if dmarc_present && String.eqb dmarc_policy "none"
            then append n2 "DMARC monitoring only (p=none)." else n2 in
  let notes_parts :=
    if dkim_checked && negb dkim_present
    then append n3 ("DKIM selector '" ++ dkim_sel
                     ++ "' not found for this domain.")
    else n3 in
  {| domain := domain;
     spf_present := spf_present;
     spf_record := spf_record;
     spf_assessment := spf_assessment;
     dmarc_present := dmarc_present;
     dmarc_record := dmarc_record;
     dmarc_policy := dmarc_policy;
     dmarc_assessment := dmarc_assessment;
     dkim_checked := dkim_checked;
     dkim_selector := if dkim_checked then dkim_sel else "";
     dkim_present := dkim_present;
     dkim_record := dkim_record;
     notes := join " " notes_parts |}.
End WithResolver.

(** *** Notions and sample inputs of the statements *)

(** A record that carries the tag [v=DKIM1], in whatever letter case. *)
Definition mentions_dkim1 (rec : string) : bool :=
  contains "V=DKIM1" (upper rec).

(** [rdata.to_text()] of a TXT rdata holding the single string [s]. *)
Definition quoted (s : string) : string :=
  String dquote (s ++ String dquote "").

(** Sample resolvers: a name with an unrelated record before a DKIM key
    record, and a name whose records carry no DKIM version tag. *)
Definition two_records (name : string) : dns_outcome :=
  Answers [quoted "unrelated"; quoted "v=DKIM1; k=rsa; p=MIGf"].

Definition plain_records (name : string) : dns_outcome :=
  Answers [quoted "google-site-verification=abc"; quoted "k=rsa; p=MIGf"].

End EmailChecker.

(** ** Exceptions, standard error and the exit status of a Python process *)

Module Py.

(** The exceptions the tools raise or let escape; [V] is what a
    [ValueError] carries (the values its message is formatted from). *)
Inductive exn (V : Type) :=
| ValueError (v : V)
| KeyError (key : string)
| TypeError (msg : string)
| AttributeError (msg : string)
| SystemExit (code : Z).
Arguments ValueError {V} v.
Arguments KeyError {V} key.
Arguments TypeError {V} msg.
Arguments AttributeError {V} msg.
Arguments SystemExit {V} code.

Inductive result (V A : Type) :=
| Return (a : A)
| Raise (e : exn V).
Arguments Return {V A} a.
Arguments Raise {V A} e.

(** A computation: what it printed to [sys.stderr], one entry for every
    call of [print] (the text of an entry may span several lines), and how
    it ended. *)
Definition M (V A : Type) : Type := list string * result V A.

Definition ret {V A} (a : A) : M V A := ([], Return a).
Definition raise {V A} (e : exn V) : M V A := ([], Raise e).
Definition print_err {V} (message : string) : M V unit :=
  ([message], Return tt).
(** [sys.exit(code)]. *)
Definition sys_exit {V A} (code : Z) : M V A := raise (SystemExit code).

Definition bind {V A B} (c : M V A) (k : A -> M V B) : M V B :=
  match c with
  | (printed, Return a) =>
      let '(printed', r) := k a in ((printed ++ printed')%list, r)
  | (printed, Raise e) => (printed, Raise e)
  end.

#[global] Instance M_ret {V} : MRet (M V) := fun A => @ret V A.
#[global] Instance M_bind {V} : MBind (M V) := fun A B k c => bind c k.
#[global] Instance M_fmap {V} : FMap (M V) :=
  fun A B f c => bind c (fun a => ret (f a)).

Definition stderr {V A} (c : M V A) : list string := fst c.
Definition outcome {V A} (c : M V A) : result V A := snd c.

(** The exit status of the interpreter when [main()] ends this way: 0 on a
    normal return, the code of [sys.exit], and 1 when any other exception
    escapes (the interpreter then prints a traceback). *)
Definition exit_status {V A} (c : M V A) : Z :=
  match outcome c with
  | Return _ => 0
  | Raise (SystemExit code) => code
  | Raise _ => 1
  end.

End Py.

(** ** Python [int(str)] in base 10 *)

Module PyInt.
Import PyStr.

Definition digit (c : ascii) : option Z :=
  if (48 <=? code c)%N && (code c <=? 57)%N
  then Some (Z.of_N (code c) - 48)%Z else None.

(** Decimal digits, where one underscore may stand between two digits;
    [after_digit] tells whether the previous character was a digit. *)
Fixpoint digits (acc : Z) (after_digit : bool) (s : string) : option Z :=
  match s with
  | EmptyString => if after_digit then Some acc else None
  | String c s' =>
      match digit c with
      | Some d => digits (10 * acc + d)%Z true s'
      | None =>
          if Ascii.eqb c "_" && after_digit then digits acc false s'
          else None
      end
  end.

(** The white space [int] skips around the number: TAB, LF, VT, FF, CR
    and the space.  The separators FS, GS, RS and US, which [str.strip]
    removes, are not among them. *)
Definition is_c_space (c : ascii) : bool :=
  ((9 <=? code c)%N && (code c <=? 13)%N) || (code c =? 32)%N.

(** The number of decimal digits in a string, leading zeros included. *)
Fixpoint count_digits (s : string) : N :=
  match s with
  | EmptyString => 0
  | String c s' =>
      ((if digit c is Some _ then 1 else 0) + count_digits s')%N
  end.

(** The interpreter's limit on the digits of a decimal string
    ([sys.get_int_max_str_digits()], 4300 unless the user changes it):
    a longer number is refused with a [ValueError]. *)
Definition max_str_digits : N := 4300.

Definition number (s : string) : option Z :=
  if (max_str_digits <? count_digits s)%N then None else digits 0 false s.

(** [int(s)] on ASCII text: [None] when Python raises [ValueError].
    White space around the number, a sign and underscores between digits
    are accepted, as in Python. *)
Definition int (s : string) : option Z :=
  match strip_by is_c_space s with
  | String "-" s' => Z.opp <$> number s'
  | String "+" s' => number s'
  | s' => number s'
  end.

End PyInt.

(** ** Python [float]: IEEE binary64, rounding to nearest even *)

Module PyFloat.
Local Open Scope Z_scope.

Definition float := spec_float.
Definition prec : Z := 53.
Definition emax : Z := 1024.

(** [float(n)] for an [int]. *)
Definition of_int (n : Z) : float := binary_normalize prec emax n 0 false.

(** [a / b] on two [int]s with [b <> 0]: the quotient correctly rounded.
    For operands below [2^53] in size, as all totals of the scorer are, it
    is the division of the two exact conversions. *)
Definition truediv (a b : Z) : float := SFdiv prec emax (of_int a) (of_int b).

(** [x * n] for a [float] and an [int]. *)
Definition mul_int (x : float) (n : Z) : float := SFmul prec emax x (of_int n).

(** The integer nearest to [n / d] for [0 <= n] and [0 < d], ties to
    even. *)
Definition round_half_even (n d : Z) : Z :=
  let q := n / d in
  let r := n mod d in
  match 2 * r ?= d with
  | Lt => q
  | Gt => q + 1
  | Eq => if Z.even q then q else q + 1
  end.

(** [round(x, 1)]: CPython prints the exact value of [x] with one
    correctly rounded fractional digit and reads the decimal back as the
    nearest [float].  An integral [x], and any [x] of size [2^49] or more
    (its neighbours are at least 1/8 apart, the decimal at most 1/20
    away), is its own result. *)
Definition round1 (x : float) : float :=
  match x with
  | S754_finite s m e =>
      if 0 <=? e then x
      else
        let d := 2 ^ (- e) in
        if 2 ^ 49 * d <=? Zpos m then x
        else
          let tenths := round_half_even (Zpos m * 10) d in
          let r := SFdiv prec emax (of_int tenths) (of_int 10) in
          if s then SFopp r else r
  | _ => x
  end.

(** [x <= n] and [n < x] for a [float] and an [int]. *)
Definition le_int (x : float) (n : Z) : bool := SFleb x (of_int n).
Definition gt_int (x : float) (n : Z) : bool := SFltb (of_int n) x.

Definition zero : float := S754_zero false.

End PyFloat.

(** ** Readiness scorer (src/score_ir_readiness.py) *)

Module Scorer.
Import Py.
Local Open Scope Z_scope.

(** [range(a, b)]. *)
Definition range (a b : Z) : list Z := seqZ a (b - a).

(** [{q: name for q in range(a, b)}]. *)
Definition category (name : string) (a b : Z) : gmap Z string :=
  list_to_map ((fun q => (q, name)) <$> range a b).

(** [{**d, **later}]: the entries of [later] win. *)
Definition unpack (d later : gmap Z string) : gmap Z string := later ∪ d.

Definition CATEGORY_MAP : gmap Z string :=
  foldl unpack ∅
    [ category "Preparation & Governance" 1 8;
      category "Detection & Reporting" 8 15;
      category "Containment" 15 19;
      category "Eradication" 19 23;
      category "Recovery" 23 28;
      category "Lessons Learned" 28 32;
      category "Advanced Controls" 32 35 ].

Definition MIN_Q_ID : Z := 1.
Definition MAX_Q_ID : Z := 34.
Definition MIN_SCORE : Z := 0.
Definition MAX_SCORE : Z := 3.

Record CategoryScore := {
  name : string;
  total : Z;
  max_total : Z;
  questions : list Z
}.

(** [CategoryScore(name=cat_name)]. *)
Definition new_category (cat_name : string) : CategoryScore :=
  {| name := cat_name; total := 0; max_total := 0; questions := [] |}.

(** One row of [csv.DictReader]: the cells under the two columns the code
    reads; [None] is the reader's filler for a row that is too short. *)
Record csv_row := {
  question_id : option string;
  score : option string
}.

(** What [open(path)] followed by [csv.DictReader] gives: the file is
    missing, or it has a header (none when the file is empty) and rows.
    Other failures of [open] escape [read_responses] as they are and are
    left out. *)
Inductive input_file :=
| FileNotFound
| CsvFile (fieldnames : option (list string)) (rows : list csv_row).

(** The [ValueError]s of [read_responses], by the values in their
    messages. *)
Inductive value_error :=
| MissingColumns (found : option (list string))
| InvalidDataRow (row : csv_row)
| QuestionIdOutOfRange (q_id : Z)
| ScoreOutOfRange (q_id score : Z)
| NoResponses.

(** [int(row[...])]; a missing cell makes [int] raise [TypeError]. *)
Definition int_cell (cell : option string) : option Z :=
  match cell with
  | Some text => PyInt.int text
  | None => None
  end.

(** The body of [for row in reader], from the scores read so far. *)
Fixpoint read_rows (scores : gmap Z Z) (rows : list csv_row)
  : M value_error (gmap Z Z) :=
  match rows with
  | [] => mret scores
  | row :: rest =>
      match int_cell (question_id row), int_cell (score row) with
      | Some q_id, Some score =>
          if (q_id <? MIN_Q_ID) || (q_id >? MAX_Q_ID)
          then raise (ValueError (QuestionIdOutOfRange q_id))
          else if (score <? MIN_SCORE) || (score >? MAX_SCORE)
          then raise (ValueError (ScoreOutOfRange q_id score))
          else read_rows (<[q_id := score]> scores) rest
      | _, _ => raise (ValueError (InvalidDataRow row))
      end
  end.

Definition has_expected_cols (fieldnames : option (list string)) : bool :=
  let found := default [] fieldnames in
  bool_decide ("question_id" ∈ found) && bool_decide ("score" ∈ found).

(** [CATEGORY_MAP.get(q_id, "Uncategorised")]. *)
Definition category_of (q_id : Z) : string :=
  default "Uncategorised" (CATEGORY_MAP !! q_id).

Section WithFiles.
(** The files the scorer can open. *)
Variable open_csv : string -> input_file.

Definition read_responses (path : string) : M value_error (gmap Z Z) :=
  match open_csv path with
  | FileNotFound =>
      print_err ("Error: input file not found: " ++ path);;
      sys_exit 1
  | CsvFile fieldnames rows =>
      if negb (has_expected_cols fieldnames)
      then raise (ValueError (MissingColumns fieldnames))
      else
        scores ← read_rows ∅ rows;
        if decide (scores = ∅)
        then raise (ValueError NoResponses)
        else mret scores
  end.
End WithFiles.

(** The first loop of [build_category_scores], one question. *)
Definition register_question (categories : gmap string CategoryScore)
    (q_id : Z) : gmap string CategoryScore :=
  let cat_name := category_of q_id in
  let categories :=
    match categories !! cat_name with
    | Some _ => categories
    | None => <[cat_name := new_category cat_name]> categories
    end in
  alter (fun cat => {| name := name cat;
                       total := total cat;
                       max_total := max_total cat + MAX_SCORE;
                       questions := append (questions cat) q_id |})
        cat_name categories.

Definition initial_categories : gmap string CategoryScore :=
  foldl register_question ∅ (range MIN_Q_ID (MAX_Q_ID + 1)).

(** The second loop, one response: [categories[cat_name].total += score]. *)
Definition add_score (q_id score : Z)
    (categories : gmap string CategoryScore)
  : M value_error (gmap string CategoryScore) :=
  let cat_name := category_of q_id in
  match categories !! cat_name with
  | Some cat =>
      mret (<[cat_name := {| name := name cat;
                             total := total cat + score;
                             max_total := max_total cat;
                             questions := questions cat |}]> categories)
  | None => raise (KeyError cat_name)
  end.

(** The responses are visited in the order of the map; the sums, and
    whether a [KeyError] is raised, do not depend on the order. *)
Definition build_category_scores (responses : gmap Z Z)
  : M value_error (gmap string CategoryScore) :=
  map_fold (fun q_id score acc => acc ≫= add_score q_id score)
           (mret initial_categories) responses.

(** [sum(f(cat) for cat in categories.values())]. *)
Definition sum_over (f : CategoryScore -> Z)
    (categories : gmap string CategoryScore) : Z :=
  map_fold (fun _ cat acc => f cat + acc) 0 categories.

Definition compute_overall_score (categories : gmap string CategoryScore)
  : Z * Z * PyFloat.float :=
  let total := sum_over total categories in
  let max_total := sum_over max_total categories in
  if max_total =? 0 then (0, 0, PyFloat.zero)
  else
    let normalized :=
      PyFloat.round1 (PyFloat.mul_int (PyFloat.truediv total max_total) 30) in
    (total, max_total, normalized).

Definition classify_maturity (normalized_score : PyFloat.float) : string :=
  if PyFloat.le_int normalized_score 10 then "Initial"
  else if PyFloat.gt_int normalized_score 10
          && PyFloat.le_int normalized_score 18 then "Basic"
  else if PyFloat.gt_int normalized_score 18
          && PyFloat.le_int normalized_score 25 then "Intermediate"
  else "Advanced".

(** Reduce record projections and [option] maps, and nothing else. *)
Ltac fields :=
  cbn [fmap option_fmap option_map name total max_total questions].

(** What [main] computes and prints. *)
Record summary := {
  categories : gmap string CategoryScore;
  overall_total : Z;
  overall_max : Z;
  normalized : PyFloat.float;
  maturity : string
}.

(** The lines of [main] after the responses were read. *)
Definition summarise (responses : gmap Z Z) : M value_error summary :=
  categories ← build_category_scores responses;
  let '(total, max_total, normalized) := compute_overall_score categories in
  let maturity := classify_maturity normalized in
  mret {| categories := categories;
          overall_total := total;
          overall_max := max_total;
          normalized := normalized;
          maturity := maturity |}.

Definition main (open_csv : string -> input_file) (input : string)
  : M value_error summary :=
  responses ← read_responses open_csv input;
  summarise responses.

(** The first lines [main] prints: total, maximum, normalised score and
    maturity level. *)
Definition headline (s : summary) : Z * Z * PyFloat.float * string :=
  (overall_total s, overall_max s, normalized s, maturity s).

(** *** Notions and sample inputs of the statements *)

(** A row whose question id, or whose score, is an integer outside its
    range. *)
Definition out_of_range (row : csv_row) : Prop :=
  (exists s, int_cell (score row) = Some s /\ (s < 0 \/ 3 < s))
  \/ (exists q_id, int_cell (question_id row) = Some q_id
                   /\ (q_id < 1 \/ 34 < q_id)).

(** A response map with question ids in 1..34 and scores in 0..3. *)
Definition valid (responses : gmap Z Z) : Prop :=
  forall q_id s, responses !! q_id = Some s ->
    1 <= q_id <= 34 /\ 0 <= s <= 3.

(** The points the responses give to a list of questions; an unanswered
    question gives none. *)
Definition answered (responses : gmap Z Z) (qs : list Z) : Z :=
  foldr (fun q acc => default 0 (responses !! q) + acc) 0 qs.

(** A category after the responses to its questions were added. *)
Definition with_answers (responses : gmap Z Z) (cat : CategoryScore)
  : CategoryScore :=
  {| name := name cat;
     total := total cat + answered responses (questions cat);
     max_total := max_total cat;
     questions := questions cat |}.

(** A row that answers question [q_id] with score [s]. *)
Definition answers (q_id s : Z) (row : csv_row) : Prop :=
  int_cell (question_id row) = Some q_id /\ int_cell (score row) = Some s.

(** Rows that hold every question id 1..34, each row with the score [s]:
    every question has a row, and every row is of this kind. *)
Definition all_questions_scored (s : Z) (rows : list csv_row) : Prop :=
  Forall (fun q_id => Exists (answers q_id s) rows) (range 1 35)
  /\ Forall (fun row => Exists (fun q_id => answers q_id s row) (range 1 35))
            rows.

(** The response map with the score [s] for every question. *)
Definition uniform_responses (s : Z) : gmap Z Z :=
  list_to_map ((fun q => (q, s)) <$> range 1 35).

(** What the first loop of [build_category_scores] establishes for the
    category under a name. *)
Definition category_facts (cat_name : string) (cat : CategoryScore) : Prop :=
  total cat = 0
  /\ max_total cat = 3 * Z.of_nat (length (questions cat))
  /\ NoDup (questions cat)
  /\ Forall (fun q => category_of q = cat_name) (questions cat).

(** A sample file whose only row has the score 4. *)
Definition bad_score_row : csv_row :=
  {| question_id := Some "1"; score := Some "4" |}.

Definition bad_score_file (path : string) : input_file :=
  CsvFile (Some ["question_id"; "score"]) [bad_score_row].

(** The question ids, as a CSV file spells them. *)
Definition question_texts : list string :=
  [ "1"; "2"; "3"; "4"; "5"; "6"; "7"; "8"; "9"; "10"; "11"; "12"; "13";
    "14"; "15"; "16"; "17"; "18"; "19"; "20"; "21"; "22"; "23"; "24"; "25";
    "26"; "27"; "28"; "29"; "30"; "31"; "32"; "33"; "34" ].

(** A sample file: one row for every question, all with the same score. *)
Definition uniform_rows (score_text : string) : list csv_row :=
  (fun q => {| question_id := Some q; score := Some score_text |})
    <$> question_texts.

Definition uniform_file (score_text : string) (path : string) : input_file :=
  CsvFile (Some ["question_id"; "score"]) (uniform_rows score_text).

End Scorer.

(** ** RACI generator (src/tools/generator/build_raci_from_yaml.py) *)

Module Raci.
Import Py.

(** The values [yaml.safe_load] builds.  A [YDict] lists the entries of a
    Python [dict]: its keys are pairwise different, and only [str] keys
    are ever looked up. *)
#[local] Set Warnings "-register-all".
Inductive yaml :=
| YNone
| YBool (b : bool)
| YInt (n : Z)
| YFloat (x : PyFloat.float)
| YStr (s : string)
| YList (items : list yaml)
| YDict (entries : list (yaml * yaml)).
#[local] Set Warnings "+register-all".

(** Truthiness, as [or] tests it. *)
Definition truthy (v : yaml) : bool :=
  match v with
  | YNone => false
  | YBool b => b
  | YInt n => negb (n =? 0)%Z
  | YFloat x => negb (SFeqb x PyFloat.zero)
  | YStr s => PyStr.truthy s
  | YList items => match items with [] => false | _ => true end
  | YDict entries => match entries with [] => false | _ => true end
  end.

(** [a or b]. *)
Definition or_else (a b : yaml) : yaml := if truthy a then a else b.

Definition is_list (v : yaml) : bool :=
  match v with YList _ => true | _ => false end.

Definition is_str (key : string) (v : yaml) : bool :=
  match v with YStr s => String.eqb s key | _ => false end.

(** The value under the [str] key [key], if the dictionary has it. *)
Fixpoint lookup_key (entries : list (yaml * yaml)) (key : string)
  : option yaml :=
  match entries with
  | [] => None
  | (k, v) :: rest => if is_str key k then Some v else lookup_key rest key
  end.

(** [key in data]: key membership for a [dict], element membership for a
    [list], substring test for a [str]; [TypeError] for the rest. *)
Definition contains_key (key : string) (data : yaml) : M string bool :=
  match data with
  | YDict entries => mret (bool_decide (is_Some (lookup_key entries key)))
  | YList items => mret (existsb (is_str key) items)
  | YStr s => mret (PyStr.contains key s)
  | _ => raise (TypeError "argument is not iterable")
  end.

(** [data[key]] for a [str] key. *)
Definition subscript (data : yaml) (key : string) : M string yaml :=
  match data with
  | YDict entries =>
      match lookup_key entries key with
      | Some v => mret v
      | None => raise (KeyError key)
      end
  | YList _ | YStr _ => raise (TypeError "indices must be integers")
  | _ => raise (TypeError "object is not subscriptable")
  end.

(** [obj.get(key, fallback)]: only a [dict] has the method. *)
Definition get (obj : yaml) (key : string) (fallback : yaml) : M string yaml :=
  match obj with
  | YDict entries => mret (default fallback (lookup_key entries key))
  | _ => raise (AttributeError "object has no attribute 'get'")
  end.

Fixpoint chars (s : string) : list yaml :=
  match s with
  | EmptyString => []
  | String c s' => YStr (String c EmptyString) :: chars s'
  end.

(** What a [for] loop or a comprehension draws from a value. *)
Definition iterate (v : yaml) : M string (list yaml) :=
  match v with
  | YList items => mret items
  | YDict entries => mret (fst <$> entries)
  | YStr s => mret (chars s)
  | _ => raise (TypeError "object is not iterable")
  end.

(** A loop whose body may raise: the results, in order, up to the first
    exception. *)
Fixpoint for_each {A B} (body : A -> M string B) (items : list A)
  : M string (list B) :=
  match items with
  | [] => mret []
  | x :: rest =>
      y ← body x;
      ys ← for_each body rest;
      mret (y :: ys)
  end.

(** What [yaml.safe_load] makes of the file at a path: there is no file,
    or the parser raises a [YAMLError] (whose text, [str(e)], spans
    several lines when it names a position), or it returns a document. *)
Inductive yaml_file :=
| NotFound
| Malformed (error : string)
| Document (data : yaml).

Inductive fill := fill_R | fill_A | fill_C | fill_I.

(** The sheet handed to [wb.save]: its title, the rows appended (header
    first), and the fill of every cell from the second row and the second
    column on.  Fonts, alignment and column widths are left out. *)
Record worksheet := {
  title : string;
  rows : list (list yaml);
  fills : list (list (option fill))
}.

(** A value a cell of a sheet can hold: openpyxl stores text, numbers,
    booleans and [None], and refuses a list or a mapping when the row is
    appended. *)
Definition storable (value : yaml) : bool :=
  match value with
  | YList _ | YDict _ => false
  | _ => true
  end.

(** [ws.append(row)]: the row is appended as it is, unless one of its
    values cannot be stored, which raises a [ValueError] (its message
    names the value).  What openpyxl does with text of its own accord
    (it refuses some control characters and cuts text beyond 32767
    characters) is left out. *)
Definition ws_append (row : list yaml) : M string (list yaml) :=
  if forallb storable row then mret row
  else raise (ValueError "Cannot convert the value to Excel").

(** The styling of one cell: [(cell.value or "").strip().upper()] and the
    chain of comparisons. *)
Definition style_cell (value : yaml) : M string (option fill) :=
  match or_else value (YStr "") with
  | YStr s =>
      let value := PyStr.upper (PyStr.strip s) in
      mret (if String.eqb value "R" then Some fill_R
            else if String.eqb value "A" then Some fill_A
            else if String.eqb value "C" then Some fill_C
            else if String.eqb value "I" then Some fill_I
            else None)
  | _ => raise (AttributeError "object has no attribute 'strip'")
  end.

Section WithBuiltins.
(** The built-in [str] on parsed values. *)
Variable str : yaml -> string.

(** The files the generator can open. *)
Variable open_yaml : string -> yaml_file.

Definition load_yaml (path : string) : M string yaml :=
  match open_yaml path with
  | NotFound =>
      print_err ("Error: input YAML not found: " ++ path);;
      sys_exit 1
  | Malformed e =>
      print_err ("Error parsing YAML file: " ++ e);;
      sys_exit 1
  | Document loaded =>
      let data := or_else loaded (YDict []) in
      has_roles ← contains_key "roles" data;
      missing ← (if negb has_roles then mret true
                 else negb <$> contains_key "tasks" data);
      if missing : bool then
        print_err "Error: YAML must contain 'roles' and 'tasks' keys.";;
        sys_exit 1
      else
        roles ← subscript data "roles";
        not_lists ← (if negb (is_list roles) then mret true
                     else (fun tasks => negb (is_list tasks))
                            <$> subscript data "tasks");
        if not_lists : bool then
          print_err "Error: 'roles' must be a list and 'tasks' must be a list.";;
          sys_exit 1
        else mret data
  end.

(** The body of [for task in tasks]: the row appended for one task. *)
Definition task_row (roles : list string) (task : yaml)
  : M string (list yaml) :=
  name ← str <$> get task "name" (YStr "");
  assignments ← (fun a => or_else a (YDict []))
                   <$> get task "assignments" (YDict []);
  values ← for_each (fun role => get assignments role (YStr "")) roles;
  ws_append (YStr name :: values).

Definition build_raci_excel (data : yaml) (output_path : string)
  : M string (string * worksheet) :=
  roles ← (fun rs => str <$> rs) <$> (get data "roles" (YList []) ≫= iterate);
  tasks ← get data "tasks" (YList []);
  let header := YStr "Task / Activity" :: (YStr <$> roles) in
  tasks ← iterate tasks;
  task_rows ← for_each (task_row roles) tasks;
  fills ← for_each (fun row => for_each style_cell (tail row)) task_rows;
  mret (output_path,
        {| title := "RACI Matrix";
           rows := header :: task_rows;
           fills := fills |}).

(** [main], for the parsed arguments [--input] and [--output]; its
    result is the file written. *)
Definition main (input output : string) : M string (string * worksheet) :=
  data ← load_yaml input;
  build_raci_excel data output.

End WithBuiltins.

(** *** Notions and sample inputs of the statements *)

(** The [assignments] mapping of a task that is itself a mapping:
    [task.get("assignments", {}) or {}], when that is a [dict]. *)
Definition assignments_of (task : yaml) : option (list (yaml * yaml)) :=
  match task with
  | YDict fields =>
      match or_else (default (YDict []) (lookup_key fields "assignments"))
                    (YDict []) with
      | YDict assignments => Some assignments
      | _ => None
      end
  | _ => None
  end.

(** The cell of a role: [assignments.get(role, "")]. *)
Definition cell_of (assignments : list (yaml * yaml)) (role : string) : yaml :=
  default (YStr "") (lookup_key assignments role).

(** A value the styling loop can handle: a [str], or anything false. *)
Definition plain_cell (value : yaml) : bool :=
  match or_else value (YStr "") with
  | YStr _ => true
  | _ => false
  end.






(** The key of a document that is a mapping. *)
Definition has_key (key : string) (doc : yaml) : bool :=
  match doc with
  | YDict entries => bool_decide (is_Some (lookup_key entries key))
  | _ => false
  end.

(** A stand-in for [str] that is right on strings, and a sample document:
    two roles, and one task that assigns only the first. *)
Definition text_of (v : yaml) : string :=
  match v with YStr s => s | _ => "" end.

Definition sample_raci : yaml :=
  YDict [ (YStr "roles", YList [YStr "IR Lead"; YStr "IT Team"]);
          (YStr "tasks",
           YList [ YDict [ (YStr "name", YStr "Incident Logging");
                           (YStr "assignments",
                            YDict [(YStr "IR Lead", YStr "A")]) ] ]) ].

Definition sample_without_tasks : yaml :=
  YDict [ (YStr "roles", YList [YStr "IR Lead"; YStr "IT Team"]) ].

(** The fill the styling loop gives to a plain cell. *)
Definition fill_of (value : yaml) : option fill :=
  match or_else value (YStr "") with
  | YStr s =>
      let code := PyStr.upper (PyStr.strip s) in
      if String.eqb code "R" then Some fill_R
      else if String.eqb code "A" then Some fill_A
      else if String.eqb code "C" then Some fill_C
      else if String.eqb code "I" then Some fill_I
      else None
  | _ => None
  end.

(** The row of a task with an assignments mapping: its name, then the
    cell of every role. *)
Definition row_of (str : yaml -> string) (roles : list string) (task : yaml)
  : list yaml :=
  match task, assignments_of task with
  | YDict fields, Some assignments =>
      YStr (str (default (YStr "") (lookup_key fields "name")))
        :: (cell_of assignments <$> roles)
  | _, _ => []
  end.

End Raci.

(** ** The email checker: the rest of its command line *)

Module EmailCli.
Import PyStr EmailChecker.

(** The parsed arguments: [--domain] (absent, or the list of its uses),
    [--input], [--output] and [--dkim-selector]. *)
Record arguments := {
  arg_domain : option (list string);
  arg_input : option string;
  arg_output : option string;
  arg_dkim_selector : option string
}.

(** Truthiness of an optional [str]. *)
Definition given (text : option string) : bool :=
  match text with Some s => truthy s | None => false end.

(** One line of the input file: the domain it adds, if any. *)
Definition domain_of_line (line : string) : option string :=
  let d := strip line in
  if truthy d && negb (startswith "#" d) then Some d else None.

(** ASCII text, on which [lower], [strip] and the order below are those
    of Python. *)
Definition ascii_text (s : string) : Prop := is_ascii s = true.

(** The order of [sorted] on [str]. *)
Definition str_le (a b : string) : Prop := String.leb a b = true.

#[global] Instance str_le_dec (a b : string) : Decision (str_le a b) :=
  decide (String.leb a b = true).

(** [sorted(set(d.lower() for d in domains if d))]: the order in which a
    set is visited does not show in the sorted list. *)
Definition cleaned (domains : list string) : list string :=
  merge_sort str_le (remove_dups (lower <$> List.filter truthy domains)).

Section WithSystem.
(** The DNS resolver, and the lines of the file at a path ([None] when
    [open] raises, which nothing catches). *)
Variable resolve : string -> dns_outcome.
Variable read_lines : string -> option (list string).

(** The domains collected before cleaning. *)
Definition collected (args : arguments) : option (list string) :=
  let domains := default [] (arg_domain args) in
  if given (arg_input args) then
    lines ← read_lines (default "" (arg_input args));
    Some (domains ++ omap domain_of_line lines)%list
  else Some domains.

Definition load_domains (args : arguments) : option (list string) :=
  cleaned <$> collected args.

(** [main]: the postures it reports, in order, and the path it calls
    [export_csv] with, if any; [None] when reading the input raises.  What
    it prints, and the writing of the CSV file, are left out.
    [check_domain] raises nothing (the lookups catch every exception), so
    the handler of the loop is never entered. *)
Definition main (args : arguments)
  : option (list DomainEmailPosture * option string) :=
  domains ← load_domains args;
  match domains with
  | [] => Some ([], None)
  | _ =>
      let results :=
        (fun d => check_domain resolve d (arg_dkim_selector args))
          <$> domains in
      Some (results,
            if given (arg_output args)
               && match results with [] => false | _ => true end
            then arg_output args else None)
  end.

End WithSystem.

(** *** Notions and sample inputs of the statements *)

(** [to_text()] of a TXT rdata that holds the strings [parts]. *)
Definition rdata_text (parts : list string) : string :=
  join " " (quoted <$> parts).

(** A string of a TXT rdata that is not empty and holds no double
    quote. *)
Definition plain_part (part : string) : Prop :=
  part <> "" /\ mem_char dquote part = false.

(** A sample command line and input file. *)
Definition sample_arguments : arguments :=
  {| arg_domain := Some ["Example.COM"; "b.example"];
     arg_input := Some "domains.txt";
     arg_output := None;
     arg_dkim_selector := None |}.

Definition sample_lines (path : string) : option (list string) :=
  Some ["# our domains"; " example.com "; ""; "A.example"].

End EmailCli.

(** ** The scorer: what the statements on the rest of its code use *)

Module ScorerMore.
Import Py Scorer.
Local Open Scope Z_scope.

(** The property [percentage] of a [CategoryScore]. *)
Definition percentage (cat : CategoryScore) : PyFloat.float :=
  if max_total cat =? 0 then PyFloat.zero
  else PyFloat.round1
         (PyFloat.mul_int (PyFloat.truediv (total cat) (max_total cat)) 100).

(** A row whose cells under the two columns are ASCII text (or are
    missing): on such cells [int] is Python's. *)
Definition ascii_cell (cell : option string) : bool :=
  match cell with
  | Some text => PyStr.is_ascii text
  | None => true
  end.

Definition ascii_row (row : csv_row) : Prop :=
  ascii_cell (question_id row) && ascii_cell (score row) = true.

(** A sample file in which question 7 has two rows. *)
Definition repeated_file (path : string) : input_file :=
  CsvFile (Some ["question_id"; "score"])
          [ {| question_id := Some "7"; score := Some "1" |};
            {| question_id := Some "2"; score := Some "3" |};
            {| question_id := Some "7"; score := Some "2" |} ].

(** A row that [read_responses] accepts as the answer [s] to the question
    [q_id]. *)
Definition accepted (row : csv_row) (answer : Z * Z) : Prop :=
  answers (fst answer) (snd answer) row
  /\ 1 <= fst answer <= 34 /\ 0 <= snd answer <= 3.

(** [scores[q_id] = score] for a list of answers, in order. *)
Definition record_all (scores : gmap Z Z) (given : list (Z * Z)) : gmap Z Z :=
  foldl (fun m answer => <[fst answer := snd answer]> m) scores given.

(** The sum of the scores of a response map. *)
Definition sum_scores (responses : gmap Z Z) : Z :=
  map_fold (fun _ s acc => s + acc) 0 responses.

(** The maturity level by the raw total, out of 102. *)
Definition band (points : Z) : string :=
  if points <=? 34 then "Initial"
  else if points <=? 61 then "Basic"
  else if points <=? 85 then "Intermediate"
  else "Advanced".

(** The normalised score of a raw total out of 102. *)
Definition normalise (points : Z) : PyFloat.float :=
  PyFloat.round1 (PyFloat.mul_int (PyFloat.truediv points 102) 30).

End ScorerMore.

(** ** The RACI generator: what the statements on the rest of its code use *)

Module RaciMore.
Import Py Raci.

(** A computation that prints nothing and can only end by returning, or by
    raising [TypeError], [AttributeError] or [ValueError]. *)
Definition tame {A} (c : M string A) : Prop :=
  match c with
  | ([], Return _) => True
  | ([], Raise (TypeError _)) => True
  | ([], Raise (AttributeError _)) => True
  | ([], Raise (ValueError _)) => True
  | _ => False
  end.

(** A value that a cell gives back as it was written: anything that is
    no text, and ASCII text of at most 32767 characters (openpyxl cuts
    longer text, and [str.strip] and [str.upper] do more outside
    ASCII). *)
Definition kept_as_written (value : yaml) : bool :=
  match value with
  | YStr s =>
      PyStr.is_ascii s && (N.of_nat (String.length s) <=? 32767)%N
  | _ => true
  end.

(** The parts of the sample document [sample_raci]. *)
Definition sample_roles : list yaml := [YStr "IR Lead"; YStr "IT Team"].

Definition sample_task : yaml :=
  YDict [ (YStr "name", YStr "Incident Logging");
          (YStr "assignments", YDict [(YStr "IR Lead", YStr "A")]) ].

Definition sample_entries : list (yaml * yaml) :=
  [ (YStr "roles", YList sample_roles); (YStr "tasks", YList [sample_task]) ].

(** A sample document whose task gives a number to a role, one whose
    task is a plain string, and one whose roles are not a list. *)
Definition numbered_task : yaml :=
  YDict [ (YStr "name", YStr "Incident Logging");
          (YStr "assignments", YDict [(YStr "IR Lead", YInt 1)]) ].

Definition sample_with_number : list (yaml * yaml) :=
  [ (YStr "roles", YList sample_roles); (YStr "tasks", YList [numbered_task]) ].

Definition sample_with_text_task : list (yaml * yaml) :=
  [ (YStr "roles", YList sample_roles);
    (YStr "tasks", YList [sample_task; YStr "Incident Logging"]) ].

Definition sample_with_text_roles : list (yaml * yaml) :=
  [ (YStr "roles", YStr "IR Lead"); (YStr "tasks", YList [sample_task]) ].

End RaciMore.

(** * Properties *)

(** ** The string methods *)

Module PyStrFacts.
Import PyStr.

Example strip_demo : strip "  v=spf1 -all  " = "v=spf1 -all".
Proof. vm_compute. reflexivity. Qed.

Example split_demo : split ";" "a; b;c" = ["a"; " b"; "c"].
Proof. vm_compute. reflexivity. Qed.

Example replace_demo : replace "ab" "X" "cababab_a" = "cXXX_a".
Proof. vm_compute. reflexivity. Qed.

(** Upper-casing never produces the lower-case letter [v]. *)
Lemma upper_char_not_v (c : ascii) : Ascii.eqb "v" (upper_char c) = false.
Proof. destruct c as [[] [] [] [] [] [] [] []]; vm_compute; reflexivity. Qed.

Lemma startswith_v_upper (rest s : string) :
  startswith (String "v" rest) (upper s) = false.
Proof.
  destruct s as [|c s]; cbn [upper startswith]; [reflexivity|].
  now rewrite upper_char_not_v.
Qed.

Lemma contains_v_upper (rest s : string) :
  contains (String "v" rest) (upper s) = false.
Proof.
  induction s as [|c s IH].
  - reflexivity.
  - change (upper (String c s)) with (String (upper_char c) (upper s)).
    change (contains (String "v" rest) (String (upper_char c) (upper s)))
      with (startswith (String "v" rest) (upper (String c s))
            || contains (String "v" rest) (upper s)).
    now rewrite startswith_v_upper, IH.
Qed.

End PyStrFacts.

(** ** The email posture checker *)

Module EmailCheckerFacts.
Import PyStr EmailChecker.

(** The result of the search loop is the first record that passes the
    test: it passes, and no record before it does; without a result no
    record passes. *)
Lemma first_record_spec (test : string -> bool) (txt_records : list string) :
  match first_record test txt_records with
  | Some rec =>
      exists before after,
        txt_records = (before ++ rec :: after)%list
        /\ test rec = true
        /\ Forall (fun r => test r = false) before
  | None => Forall (fun r => test r = false) txt_records
  end.
Proof.
  induction txt_records as [|r rest IH]; simpl.
  - constructor.
  - destruct (test r) eqn:Hr.
    + exists [], rest. repeat split; [assumption | constructor].
    + destruct (first_record test rest) as [rec|].
      * destruct IH as (before & after & -> & Hrec & Hbefore).
        exists (r :: before), after.
        repeat split; [assumption | now constructor].
      * now constructor.
Qed.

Lemma first_record_none (test : string -> bool) (txt_records : list string) :
  Forall (fun r => test r = false) txt_records ->
  first_record test txt_records = None.
Proof.
  induction 1 as [|r rest Hr _ IH]; simpl; [reflexivity|].
  now rewrite Hr.
Qed.

(** SPF: the first record that starts with [v=spf1] in any letter case,
    and no record when none does. *)
Lemma get_spf_record_first resolve (domain : string) :
  match get_spf_record resolve domain with
  | Some rec =>
      exists before after,
        lookup_txt_records resolve domain = (before ++ rec :: after)%list
        /\ startswith "v=spf1" (lower rec) = true
        /\ Forall (fun r => startswith "v=spf1" (lower r) = false) before
  | None =>
      Forall (fun r => startswith "v=spf1" (lower r) = false)
             (lookup_txt_records resolve domain)
  end.
Proof. apply (first_record_spec is_spf). Qed.

(** DMARC: the same at [_dmarc.<domain>] with [v=dmarc1]. *)
Lemma get_dmarc_record_first resolve (domain : string) :
  match get_dmarc_record resolve domain with
  | Some rec =>
      exists before after,
        lookup_txt_records resolve ("_dmarc." ++ domain)
          = (before ++ rec :: after)%list
        /\ startswith "v=dmarc1" (lower rec) = true
        /\ Forall (fun r => startswith "v=dmarc1" (lower r) = false) before
  | None =>
      Forall (fun r => startswith "v=dmarc1" (lower r) = false)
             (lookup_txt_records resolve ("_dmarc." ++ domain))
  end.
Proof. apply (first_record_spec is_dmarc). Qed.

(** The test of the DKIM loop fails on every record. *)
Lemma is_dkim_never (rec : string) : is_dkim rec = false.
Proof. apply PyStrFacts.contains_v_upper. Qed.

Lemma first_dkim_none (txt_records : list string) :
  first_record is_dkim txt_records = None.
Proof.
  apply first_record_none, Forall_forall. intros r _. apply is_dkim_never.
Qed.

(** With a selector and at least one TXT record, the DKIM lookup answers
    with the first record, whatever the records say. *)
Lemma get_dkim_record_first resolve (domain selector first : string)
    (rest : list string) :
  selector <> "" ->
  lookup_txt_records resolve (selector ++ "._domainkey." ++ domain)
    = first :: rest ->
  get_dkim_record resolve domain (Some selector)
    = (true, selector, true, first).
Proof.
  intros Hsel Hrecs. unfold get_dkim_record.
  destruct selector as [|c sel]; [congruence|].
  rewrite Hrecs, first_dkim_none. reflexivity.
Qed.

(** C2 (the code departs from the claim): the DKIM lookup does not select
    the first record that matches the version prefix v=DKIM1.  When the
    name [sel._domainkey.example.com] has the TXT records "unrelated" and
    "v=DKIM1; k=rsa; p=MIGf", in this order, the second record starts
    with v=DKIM1 and the first does not, yet [get_dkim_record] returns
    "unrelated" as the DKIM record. *)
Theorem C2_dkim_first_match_missed :
  lookup_txt_records two_records "sel._domainkey.example.com"
    = ["unrelated"; "v=DKIM1; k=rsa; p=MIGf"]
  /\ startswith "v=DKIM1" "unrelated" = false
  /\ startswith "v=DKIM1" "v=DKIM1; k=rsa; p=MIGf" = true
  /\ get_dkim_record two_records "example.com" (Some "sel")
     = (true, "sel", true, "unrelated").
Proof. vm_compute. repeat split. Qed.

(** C3: when the TXT lookup of a name raises, whatever the exception,
    [lookup_txt_records] returns the empty list, and the checker reports
    no record for that name: no SPF record for a domain, no DMARC record
    at its [_dmarc.] name, no DKIM record at a selector name. *)
Theorem C3_lookup_failure_is_empty resolve (name : string)
    (e : dns_exception) :
  resolve name = Raises e ->
  lookup_txt_records resolve name = []
  /\ (forall domain, name = domain ->
        get_spf_record resolve domain = None
        /\ assess_spf (get_spf_record resolve domain)
           = (false, "", "No SPF record found."))
  /\ (forall domain, name = "_dmarc." ++ domain ->
        get_dmarc_record resolve domain = None
        /\ assess_dmarc (get_dmarc_record resolve domain)
           = (false, "", "", "No DMARC record found."))
  /\ (forall domain selector,
        selector <> "" -> name = selector ++ "._domainkey." ++ domain ->
        get_dkim_record resolve domain (Some selector)
        = (true, selector, false, "")).
Proof.
  intros Hraise.
  assert (Hempty : lookup_txt_records resolve name = []).
  { unfold lookup_txt_records. rewrite Hraise. now destruct e. }
  split; [exact Hempty|].
  split; [|split].
  - intros domain <-. unfold get_spf_record. rewrite Hempty. now split.
  - intros domain Hname. unfold get_dmarc_record.
    rewrite <- Hname, Hempty. now split.
  - intros domain selector Hsel Hname. unfold get_dkim_record.
    destruct selector as [|c sel]; [congruence|].
    now rewrite <- Hname, Hempty.
Qed.

Lemma C3_witness :
  lookup_txt_records (fun _ => Raises NoNameservers) "example.com" = [].
Proof.
  exact (proj1 (C3_lookup_failure_is_empty
                  (fun _ => Raises NoNameservers) "example.com"
                  NoNameservers eq_refl)).
Defined.

(** C5: for the SPF record "v=spf1 include:example.com -all", [assess_spf]
    reports SPF as present, and its assessment text contains "Restrictive
    policy" and the note on include mechanisms. *)
Theorem C5_assess_spf_restrictive_include :
  let '(present, record, assessment) :=
    assess_spf (Some "v=spf1 include:example.com -all") in
  present = true
  /\ record = "v=spf1 include:example.com -all"
  /\ assessment = "Restrictive policy (-all). Uses include mechanisms (check third-party senders)."
  /\ contains "Restrictive policy" assessment = true
  /\ contains "include mechanisms" assessment = true.
Proof. vm_compute. repeat split. Qed.

(** C6: for the DMARC record "v=DMARC1; p=none; pct=50", [assess_dmarc]
    reports DMARC as present with policy "none"; its assessment flags the
    monitoring-only policy (p=none) and notes that the policy applies to
    50% of the messages (pct=50). *)
Theorem C6_assess_dmarc_none_pct :
  let '(present, record, policy, assessment) :=
    assess_dmarc (Some "v=DMARC1; p=none; pct=50") in
  present = true
  /\ record = "v=DMARC1; p=none; pct=50"
  /\ policy = "none"
  /\ contains "Monitoring-only DMARC policy (p=none)" assessment = true
  /\ contains "DMARC applies to 50% of messages (pct=50)." assessment = true.
Proof. vm_compute. repeat split. Qed.

(** C7: with a selector, when the TXT records at
    [selector._domainkey.domain] are not empty and none of them carries a
    v=DKIM1 tag, [get_dkim_record] reports DKIM as present and returns
    the first TXT record as the DKIM record. *)
Theorem C7_dkim_fallback_first_record resolve
    (domain selector first : string) (rest : list string) :
  selector <> "" ->
  lookup_txt_records resolve (selector ++ "._domainkey." ++ domain)
    = first :: rest ->
  Forall (fun rec => mentions_dkim1 rec = false) (first :: rest) ->
  get_dkim_record resolve domain (Some selector)
    = (true, selector, true, first).
Proof.
  intros Hsel Hrecs _. now apply get_dkim_record_first with rest.
Qed.

Lemma C7_witness :
  get_dkim_record plain_records "example.com" (Some "sel")
    = (true, "sel", true, "google-site-verification=abc").
Proof.
  apply (C7_dkim_fallback_first_record plain_records "example.com" "sel"
           "google-site-verification=abc" ["k=rsa; p=MIGf"]).
  - discriminate.
  - vm_compute. reflexivity.
  - repeat constructor.
Defined.

End EmailCheckerFacts.

(** ** The monad of computations *)

Module PyFacts.
Import Py.

Lemma bind_ret {V A B} (a : A) (k : A -> M V B) : mret a ≫= k = k a.
Proof.
  unfold mbind, M_bind, mret, M_ret, bind, ret.
  now destruct (k a) as [printed r].
Qed.

Lemma bind_raise {V A B} (printed : list string) (e : exn V)
    (k : A -> M V B) :
  (printed, Raise e) ≫= k = (printed, Raise e).
Proof. reflexivity. Qed.

Lemma exit_status_raise {V A} (printed : list string) (v : V) :
  exit_status ((printed, Raise (ValueError v)) : M V A) = 1%Z.
Proof. reflexivity. Qed.

End PyFacts.

(** ** The readiness scorer *)

Module ScorerFacts.
Import Py Scorer.
Local Open Scope Z_scope.

Lemma read_rows_out_of_range (rows : list csv_row) :
  forall (scores : gmap Z Z) (row : csv_row),
    row ∈ rows -> out_of_range row ->
    exists v, read_rows scores rows = ([], Raise (ValueError v)).
Proof.
  induction rows as [|r rest IH]; intros scores row Hin Hbad.
  - now apply elem_of_nil in Hin.
  - cbn [read_rows].
    destruct (int_cell (question_id r)) as [q|] eqn:Hq;
      [destruct (int_cell (score r)) as [s|] eqn:Hs|];
      try (eexists; reflexivity).
    destruct ((q <? MIN_Q_ID) || (q >? MAX_Q_ID)) eqn:Hqr;
      [eexists; reflexivity|].
    destruct ((s <? MIN_SCORE) || (s >? MAX_SCORE)) eqn:Hsr;
      [eexists; reflexivity|].
    apply elem_of_cons in Hin as [-> | Hin]; [|now apply (IH _ row)].
    exfalso. unfold MIN_Q_ID, MAX_Q_ID, MIN_SCORE, MAX_SCORE in *.
    destruct Hbad as [(s' & Hs' & Hrange) | (q' & Hq' & Hrange)];
      simplify_eq; lia.
Qed.

Lemma read_rows_valid (rows : list csv_row) :
  forall (scores result : gmap Z Z) (printed : list string),
    valid scores ->
    read_rows scores rows = (printed, Return result) ->
    valid result.
Proof.
  induction rows as [|r rest IH]; intros scores result printed Hvalid Hread.
  - cbv [read_rows mret M_ret ret] in Hread. now simplify_eq.
  - cbn [read_rows] in Hread.
    destruct (int_cell (question_id r)) as [q|];
      [destruct (int_cell (score r)) as [s|]|]; try discriminate.
    destruct ((q <? MIN_Q_ID) || (q >? MAX_Q_ID)) eqn:Hqr; [discriminate|].
    destruct ((s <? MIN_SCORE) || (s >? MAX_SCORE)) eqn:Hsr; [discriminate|].
    apply (IH _ _ _) in Hread; [assumption|].
    intros q' s' Hlookup.
    unfold MIN_Q_ID, MAX_Q_ID, MIN_SCORE, MAX_SCORE in *.
    destruct (decide (q = q')) as [<-|Hne].
    + rewrite lookup_insert_eq in Hlookup. simplify_eq. lia.
    + rewrite lookup_insert_ne in Hlookup by assumption. now apply Hvalid.
Qed.

(** Whatever [read_responses] returns is a valid response map. *)
Lemma read_responses_valid open_csv (path : string)
    (responses : gmap Z Z) (printed : list string) :
  read_responses open_csv path = (printed, Return responses) ->
  valid responses.
Proof.
  unfold read_responses.
  destruct (open_csv path) as [|fieldnames rows]; [discriminate|].
  destruct (negb (has_expected_cols fieldnames)); [discriminate|].
  destruct (read_rows ∅ rows) as [printed' [scores|e]] eqn:Hread;
    [|discriminate].
  intros Hret.
  assert (Hsame : scores = responses).
  { unfold mbind, M_bind, bind in Hret.
    destruct (decide (scores = ∅)); cbn in Hret; now simplify_eq. }
  subst responses.
  apply (read_rows_valid rows ∅ scores printed'); [|assumption].
  intros q s Hlookup. now rewrite lookup_empty in Hlookup.
Qed.

(** C4: when the input CSV has a row whose score is an integer outside
    0..3, or whose question id is an integer outside 1..34, reading the
    responses raises a [ValueError]; the exception escapes [main], so the
    scorer ends with exit status 1; and a response map that is returned
    never comes from such a file. *)
Theorem C4_out_of_range_row_aborts open_csv (path : string)
    (fieldnames : option (list string)) (rows : list csv_row)
    (row : csv_row) :
  open_csv path = CsvFile fieldnames rows ->
  row ∈ rows ->
  out_of_range row ->
  (exists v,
      outcome (read_responses open_csv path) = Raise (ValueError v)
      /\ outcome (main open_csv path) = Raise (ValueError v))
  /\ exit_status (main open_csv path) = 1
  /\ (forall responses,
        outcome (read_responses open_csv path) <> Return responses).
Proof.
  intros Hopen Hin Hbad.
  assert (Hraise : exists v,
             read_responses open_csv path = ([], Raise (ValueError v))).
  { unfold read_responses. rewrite Hopen.
    destruct (negb (has_expected_cols fieldnames)); [eexists; reflexivity|].
    destruct (read_rows_out_of_range rows ∅ row Hin Hbad) as [v ->].
    now exists v. }
  destruct Hraise as [v Hraise].
  unfold main. rewrite Hraise. cbn.
  split; [now exists v|]. split; [reflexivity|]. discriminate.
Qed.

Lemma C4_witness :
  outcome (main bad_score_file "responses.csv")
  = Raise (ValueError (ScoreOutOfRange 1 4))
  /\ exit_status (main bad_score_file "responses.csv") = 1.
Proof.
  destruct (C4_out_of_range_row_aborts bad_score_file "responses.csv"
              (Some ["question_id"; "score"]) [bad_score_row] bad_score_row)
    as [_ [Hexit _]].
  - reflexivity.
  - apply list_elem_of_here.
  - left. exists 4. split; [reflexivity | lia].
  - split; [reflexivity | exact Hexit].
Defined.

(** *** The categories after the first loop *)

Lemma initial_categories_facts : map_Forall category_facts initial_categories.
Proof. unfold category_facts. compute_done. Qed.

(** Every question 1..34 is listed in the category [CATEGORY_MAP] gives
    it. *)
Lemma question_registered (q_id : Z) :
  1 <= q_id <= 34 ->
  exists cat, initial_categories !! category_of q_id = Some cat
              /\ q_id ∈ questions cat.
Proof.
  intros Hrange.
  assert (Hin : q_id ∈ range 1 35) by (apply elem_of_seqZ; lia).
  assert (Hall : forallb
                   (fun q => match initial_categories !! category_of q with
                             | Some cat => bool_decide (q ∈ questions cat)
                             | None => false
                             end) (range 1 35) = true)
    by (vm_compute; reflexivity).
  rewrite forallb_forall in Hall.
  apply list_elem_of_In, Hall in Hin.
  destruct (initial_categories !! category_of q_id) as [cat|];
    [|discriminate].
  exists cat. split; [reflexivity|]. now apply bool_decide_eq_true in Hin.
Qed.

(** The sum of the per-category maxima does not depend on the totals. *)
Lemma sum_over_initial_max : sum_over max_total initial_categories = 102.
Proof. vm_compute. reflexivity. Qed.

(** *** The points of the responses *)

Lemma answered_cons (responses : gmap Z Z) (q : Z) (qs : list Z) :
  answered responses (q :: qs)
  = default 0 (responses !! q) + answered responses qs.
Proof. reflexivity. Qed.

Lemma answered_empty (qs : list Z) : answered ∅ qs = 0.
Proof.
  induction qs as [|q qs IH]; [reflexivity|].
  now rewrite answered_cons, lookup_empty, IH.
Qed.

Lemma answered_insert_notin (responses : gmap Z Z) (q_id s : Z)
    (qs : list Z) :
  q_id ∉ qs ->
  answered (<[q_id := s]> responses) qs = answered responses qs.
Proof.
  induction qs as [|q qs IH]; intros Hnotin; [reflexivity|].
  apply not_elem_of_cons in Hnotin as [Hne Hnotin].
  rewrite !answered_cons, lookup_insert_ne by assumption.
  now rewrite IH.
Qed.

Lemma answered_insert_in (responses : gmap Z Z) (q_id s : Z) (qs : list Z) :
  responses !! q_id = None -> NoDup qs -> q_id ∈ qs ->
  answered (<[q_id := s]> responses) qs = answered responses qs + s.
Proof.
  intros Hfresh. induction 1 as [|q qs Hq Hnodup IH]; intros Hin.
  - now apply elem_of_nil in Hin.
  - rewrite !answered_cons.
    apply elem_of_cons in Hin as [<- | Hin].
    + rewrite lookup_insert_eq, Hfresh, answered_insert_notin by assumption.
      cbn. lia.
    + rewrite lookup_insert_ne by (intros ->; contradiction).
      rewrite IH by assumption. lia.
Qed.

Lemma with_answers_empty (cat : CategoryScore) : with_answers ∅ cat = cat.
Proof.
  destruct cat as [n t mt qs]. unfold with_answers. fields.
  rewrite answered_empty. f_equal. lia.
Qed.

Lemma valid_insert (responses : gmap Z Z) (q_id s : Z) :
  responses !! q_id = None -> valid (<[q_id := s]> responses) ->
  valid responses /\ 1 <= q_id <= 34.
Proof.
  intros Hfresh Hvalid. split.
  - intros q s' Hlookup. apply (Hvalid q s').
    rewrite lookup_insert_ne; [assumption|]. intros ->. congruence.
  - apply (Hvalid q_id s), lookup_insert_eq.
Qed.

(** *** The second loop *)

(** For valid responses the second loop never raises, and its result is
    the initial categories with the answered points added. *)
Lemma build_category_scores_eq (responses : gmap Z Z) :
  valid responses ->
  build_category_scores responses
  = mret (with_answers responses <$> initial_categories).
Proof.
  unfold build_category_scores.
  apply (map_fold_weak_ind
           (fun r m => valid m ->
                       r = mret (with_answers m <$> initial_categories))).
  - intros _.
    replace (with_answers ∅ <$> initial_categories) with initial_categories;
      [reflexivity|].
    apply map_eq. intros k. rewrite lookup_fmap.
    destruct (initial_categories !! k) as [cat|]; fields; [|reflexivity].
    now rewrite with_answers_empty.
  - intros q_id s m r Hfresh IH Hvalid.
    destruct (valid_insert m q_id s Hfresh Hvalid) as [Hm Hrange].
    rewrite (IH Hm), PyFacts.bind_ret. unfold add_score.
    destruct (question_registered q_id Hrange) as (cat & Hcat & Hin).
    pose proof (initial_categories_facts _ _ Hcat) as (_ & _ & Hnodup & _).
    rewrite lookup_fmap, Hcat. fields.
    apply (f_equal mret). apply map_eq. intros k.
    destruct (decide (k = category_of q_id)) as [->|Hne].
    + rewrite lookup_insert_eq, lookup_fmap, Hcat. fields. f_equal.
      unfold with_answers. fields. f_equal.
      rewrite answered_insert_in by assumption. lia.
    + rewrite lookup_insert_ne by congruence. rewrite !lookup_fmap.
      destruct (initial_categories !! k) as [other|] eqn:Hother;
        fields; [|reflexivity].
      f_equal. unfold with_answers. f_equal.
      rewrite answered_insert_notin; [reflexivity|].
      intros Hmember.
      pose proof (initial_categories_facts _ _ Hother) as (_ & _ & _ & Hall).
      rewrite Forall_forall in Hall. apply Hne. symmetry.
      exact (Hall _ Hmember).
Qed.

Lemma sum_over_max_with_answers (responses : gmap Z Z) :
  sum_over max_total (with_answers responses <$> initial_categories) = 102.
Proof.
  unfold sum_over. rewrite map_fold_fmap. exact sum_over_initial_max.
Qed.

(** C10: for every valid response map, [build_category_scores] returns,
    and the overall maximum that [compute_overall_score] computes from its
    result is 102, whichever questions were answered: every question 1..34
    is listed in its category, the maximum of a category is 3 for each of
    its questions, and the total of a category is the sum of the scores of
    its questions, where a question absent from the input counts 0. *)
Theorem C10_max_total_is_102 (responses : gmap Z Z) :
  valid responses ->
  exists categories,
    build_category_scores responses = ([], Return categories)
    /\ snd (fst (compute_overall_score categories)) = 102
    /\ (forall q_id, 1 <= q_id <= 34 ->
          exists cat, categories !! category_of q_id = Some cat
                      /\ q_id ∈ questions cat)
    /\ (forall cat_name cat, categories !! cat_name = Some cat ->
          max_total cat = 3 * Z.of_nat (length (questions cat))
          /\ total cat = answered responses (questions cat)).
Proof.
  intros Hvalid.
  exists (with_answers responses <$> initial_categories).
  split; [now apply build_category_scores_eq|].
  split; [|split].
  - unfold compute_overall_score.
    rewrite sum_over_max_with_answers. reflexivity.
  - intros q_id Hrange.
    destruct (question_registered q_id Hrange) as (cat & Hcat & Hin).
    exists (with_answers responses cat).
    rewrite lookup_fmap, Hcat. split; [reflexivity | exact Hin].
  - intros cat_name cat Hlookup. rewrite lookup_fmap in Hlookup.
    destruct (initial_categories !! cat_name) as [cat0|] eqn:Hcat0;
      [|discriminate].
    injection Hlookup as <-.
    pose proof (initial_categories_facts _ _ Hcat0) as (Htotal & Hmax & _).
    unfold with_answers. fields. rewrite Htotal. split; [assumption | lia].
Qed.

Lemma C10_witness :
  valid {[ 5 := 2; 20 := 3 ]}
  /\ exists categories,
       build_category_scores {[ 5 := 2; 20 := 3 ]} = ([], Return categories)
       /\ snd (fst (compute_overall_score categories)) = 102.
Proof.
  assert (Hvalid : valid {[ 5 := 2; 20 := 3 ]}).
  { change (map_Forall (fun q_id s => 1 <= q_id <= 34 /\ 0 <= s <= 3)
                       ({[ 5 := 2; 20 := 3 ]} : gmap Z Z)).
    compute_done. }
  split; [exact Hvalid|].
  destruct (C10_max_total_is_102 _ Hvalid) as (categories & Hbuild & Hmax & _).
  exists categories. split; assumption.
Defined.

(** *** Files that answer every question with one score *)

Lemma uniform_lookup (s q_id : Z) :
  uniform_responses s !! q_id
  = if decide (1 <= q_id <= 34) then Some s else None.
Proof.
  unfold uniform_responses.
  assert (Hkeys : ((fun q => (q, s)) <$> range 1 35).*1 = range 1 35).
  { rewrite <- list_fmap_compose. apply list_fmap_id. }
  destruct (decide (1 <= q_id <= 34)) as [Hin|Hout].
  - apply elem_of_list_to_map_1.
    + rewrite Hkeys. apply NoDup_seqZ.
    + apply (list_elem_of_fmap_2 (fun q => (q, s))), elem_of_seqZ. lia.
  - apply not_elem_of_list_to_map_1. rewrite Hkeys.
    intros Hin. apply elem_of_seqZ in Hin. lia.
Qed.

Lemma uniform_valid (s : Z) : 0 <= s <= 3 -> valid (uniform_responses s).
Proof.
  intros Hs q_id s' Hlookup. rewrite uniform_lookup in Hlookup.
  destruct (decide (1 <= q_id <= 34)); simplify_eq. lia.
Qed.

(** Rows that all carry the score [s] and a question id in range are all
    accepted; a question with a row ends with the score [s], and any other
    keeps what it had. *)
Lemma read_rows_scored (s : Z) (rows : list csv_row) :
  0 <= s <= 3 ->
  Forall (fun row => Exists (fun q_id => answers q_id s row) (range 1 35))
         rows ->
  forall scores, exists result,
    read_rows scores rows = ([], Return result)
    /\ (forall q_id, result !! q_id = Some s
                     \/ result !! q_id = scores !! q_id)
    /\ (forall q_id, Exists (answers q_id s) rows
                     -> result !! q_id = Some s).
Proof.
  intros Hs. induction 1 as [|row rest Hrow _ IH]; intros scores.
  - exists scores. split; [reflexivity|]. split; [now right|].
    intros q_id Hex. now apply Exists_nil in Hex.
  - apply Exists_exists in Hrow as (q0 & Hq0 & Hid & Hscore).
    apply elem_of_seqZ in Hq0.
    destruct (IH (<[q0 := s]> scores)) as (result & Hread & Hkeep & Hset).
    exists result. split; [|split].
    + cbn [read_rows]. rewrite Hid, Hscore.
      unfold MIN_Q_ID, MAX_Q_ID, MIN_SCORE, MAX_SCORE.
      replace ((q0 <? 1) || (q0 >? 34)) with false by lia.
      replace ((s <? 0) || (s >? 3)) with false by lia.
      exact Hread.
    + intros q_id. destruct (Hkeep q_id) as [H|H]; [now left|].
      destruct (decide (q0 = q_id)) as [<-|Hne].
      * left. now rewrite H, lookup_insert_eq.
      * right. now rewrite H, lookup_insert_ne.
    + intros q_id Hex. apply Exists_cons in Hex as [[Hid' _] | Hex].
      * assert (q_id = q0) as -> by congruence.
        destruct (Hkeep q0) as [H|H]; [assumption|].
        now rewrite H, lookup_insert_eq.
      * now apply Hset.
Qed.

Lemma read_rows_uniform (s : Z) (rows : list csv_row) :
  0 <= s <= 3 -> all_questions_scored s rows ->
  read_rows ∅ rows = ([], Return (uniform_responses s)).
Proof.
  intros Hs [Hevery Honly].
  destruct (read_rows_scored s rows Hs Honly ∅)
    as (result & Hread & Hkeep & Hset).
  rewrite Hread. repeat f_equal. apply map_eq. intros q_id.
  rewrite uniform_lookup.
  destruct (decide (1 <= q_id <= 34)) as [Hin|Hout].
  - apply Hset. rewrite Forall_forall in Hevery.
    apply Hevery, elem_of_seqZ. lia.
  - destruct (Hkeep q_id) as [H|H]; [|now rewrite H, lookup_empty].
    exfalso. apply Hout.
    assert (Hvalid : valid result).
    { apply (read_rows_valid rows ∅ result []); [|assumption].
      intros q s' Hlookup. now rewrite lookup_empty in Hlookup. }
    now apply (Hvalid q_id s).
Qed.

Lemma read_responses_uniform open_csv (path : string)
    (fieldnames : list string) (rows : list csv_row) (s : Z) :
  open_csv path = CsvFile (Some fieldnames) rows ->
  "question_id" ∈ fieldnames -> "score" ∈ fieldnames ->
  0 <= s <= 3 -> all_questions_scored s rows ->
  read_responses open_csv path = mret (uniform_responses s).
Proof.
  intros Hopen Hq Hsc Hs Hrows. unfold read_responses. rewrite Hopen.
  unfold has_expected_cols. cbn [default].
  rewrite !bool_decide_eq_true_2 by assumption. cbn [andb negb].
  rewrite (read_rows_uniform s rows Hs Hrows).
  change ([], Return (uniform_responses s))
    with (mret (uniform_responses s) : M value_error (gmap Z Z)).
  rewrite PyFacts.bind_ret.
  destruct (decide (uniform_responses s = ∅)) as [Hempty|_]; [|reflexivity].
  exfalso. pose proof (uniform_lookup s 1) as H.
  rewrite Hempty, lookup_empty in H. now destruct (decide (1 <= 1 <= 34)).
Qed.

(** The summary of the two uniform response maps of the claim. *)
Lemma summarise_all_three :
  headline <$> summarise (uniform_responses 3)
  = mret (102, 102, PyFloat.of_int 30, "Advanced").
Proof. vm_compute. reflexivity. Qed.

Lemma summarise_all_zero :
  headline <$> summarise (uniform_responses 0)
  = mret (0, 102, PyFloat.zero, "Initial").
Proof. vm_compute. reflexivity. Qed.

Lemma fmap_bind_ret {V A B C} (f : B -> C) (a : A) (k : A -> M V B) :
  f <$> (mret a ≫= k) = f <$> k a.
Proof. now rewrite PyFacts.bind_ret. Qed.

(** C1: for an input file with the two columns whose rows hold all 34
    question ids, each row with the score 3, the scorer computes the
    normalised score 30.0 and the maturity level "Advanced" (the total and
    the maximum are both 102); when each row has the score 0 it computes
    0.0 and "Initial". *)
Theorem C1_uniform_inputs open_csv (path : string)
    (fieldnames : list string) (rows : list csv_row) :
  open_csv path = CsvFile (Some fieldnames) rows ->
  "question_id" ∈ fieldnames ->
  "score" ∈ fieldnames ->
  (all_questions_scored 3 rows ->
     headline <$> main open_csv path
     = ([], Return (102, 102, PyFloat.of_int 30, "Advanced")))
  /\ (all_questions_scored 0 rows ->
        headline <$> main open_csv path
        = ([], Return (0, 102, PyFloat.zero, "Initial"))).
Proof.
  intros Hopen Hq Hs. split; intros Hrows; unfold main.
  - rewrite (read_responses_uniform open_csv path fieldnames rows 3)
      by (assumption || lia).
    rewrite fmap_bind_ret. exact summarise_all_three.
  - rewrite (read_responses_uniform open_csv path fieldnames rows 0)
      by (assumption || lia).
    rewrite fmap_bind_ret. exact summarise_all_zero.
Qed.

Lemma C1_witness :
  headline <$> main (uniform_file "3") "responses.csv"
  = ([], Return (102, 102, PyFloat.of_int 30, "Advanced")).
Proof.
  apply (proj1 (C1_uniform_inputs (uniform_file "3") "responses.csv"
                  ["question_id"; "score"] (uniform_rows "3")
                  eq_refl ltac:(compute_done) ltac:(compute_done))).
  compute_done.
Defined.

End ScorerFacts.

(** ** The RACI generator *)

Module RaciFacts.
Import Py Raci.

Lemma fmap_ret {V A B} (f : A -> B) (a : A) :
  f <$> (mret a : M V A) = mret (f a).
Proof. reflexivity. Qed.

(** A loop whose body returns at every item returns all the results. *)
Lemma for_each_returns {A B} (body : A -> M string B) (result : A -> B)
    (items : list A) :
  Forall (fun x => body x = mret (result x)) items ->
  for_each body items = mret (result <$> items).
Proof.
  induction 1 as [|x rest Hx _ IH]; [reflexivity|].
  cbn [for_each]. now rewrite Hx, PyFacts.bind_ret, IH, PyFacts.bind_ret.
Qed.


(** A sequence that returns: both parts returned. *)
Lemma bind_returns {V A B} (c : M V A) (k : A -> M V B)
    (printed : list string) (b : B) :
  c ≫= k = (printed, Return b) ->
  exists printed1 a printed2,
    c = (printed1, Return a) /\ k a = (printed2, Return b).
Proof.
  unfold mbind, M_bind, bind. destruct c as [printed1 [a|e]];
    [|discriminate].
  destruct (k a) as [printed2 r] eqn:Hk. intros H.
  injection H as _ ->. now exists printed1, a, printed2.
Qed.

(** A loop that returns: its body returned at every item, in order. *)
Lemma for_each_inv {A B} (body : A -> M string B) (items : list A) :
  forall (printed : list string) (results : list B),
    for_each body items = (printed, Return results) ->
    Forall2 (fun x y => exists printed', body x = (printed', Return y))
            items results.
Proof.
  induction items as [|x rest IH]; intros printed results Hloop.
  - injection Hloop as _ <-. constructor.
  - cbn [for_each] in Hloop.
    apply bind_returns in Hloop as (p1 & y & p2 & Hx & Hrest).
    apply bind_returns in Hrest as (p3 & ys & p4 & Hys & Hret).
    injection Hret as _ <-.
    constructor; [now exists p1 | now apply (IH p3)].
Qed.


Lemma ws_append_returns (row row' : list yaml) (printed : list string) :
  ws_append row = (printed, Return row') ->
  printed = [] /\ row' = row /\ forallb storable row = true.
Proof.
  unfold ws_append. destruct (forallb storable row); [|discriminate].
  intros H. injection H as <- <-. auto.
Qed.

Section WithStr.
Variable str : yaml -> string.

(** The row of a task that is a mapping with an assignments mapping: the
    loop body appends it. *)
Lemma task_row_of (roles : list string) (task : yaml)
    (assignments : list (yaml * yaml)) :
  assignments_of task = Some assignments ->
  task_row str roles task = ws_append (row_of str roles task).
Proof.
  intros Hassign.
  destruct task as [| | | | |?|fields]; try discriminate.
  unfold row_of. rewrite Hassign. unfold task_row. cbn [get].
  unfold assignments_of in Hassign.
  destruct (or_else (default (YDict []) (lookup_key fields "assignments"))
                    (YDict [])) as [| | | | |?|found] eqn:Hfound;
    try discriminate.
  injection Hassign as ->.
  rewrite !fmap_ret, !PyFacts.bind_ret, Hfound.
  rewrite (for_each_returns _ (cell_of assignments)).
  - now rewrite PyFacts.bind_ret.
  - apply Forall_forall. intros role _. reflexivity.
Qed.







End WithStr.



(** *** Loading the document *)

Section WithFiles.
Variable str : yaml -> string.
Variable open_yaml : string -> yaml_file.

(** A mapping without one of the two keys: the message, then
    [sys.exit(1)]. *)
Lemma load_yaml_missing_key (input : string) (doc : yaml)
    (entries : list (yaml * yaml)) :
  open_yaml input = Document doc ->
  or_else doc (YDict []) = YDict entries ->
  lookup_key entries "roles" = None \/ lookup_key entries "tasks" = None ->
  load_yaml open_yaml input
  = (["Error: YAML must contain 'roles' and 'tasks' keys."],
     Raise (SystemExit 1)).
Proof.
  intros Hopen Hdata Hmissing. unfold load_yaml.
  rewrite Hopen, Hdata. cbn [contains_key].
  rewrite PyFacts.bind_ret.
  destruct (lookup_key entries "roles") as [roles|] eqn:Hroles.
  - destruct Hmissing as [?|Htasks]; [discriminate|].
    rewrite bool_decide_eq_true_2 by eauto. cbn [negb].
    rewrite Htasks, bool_decide_eq_false_2 by (intros [? ?]; discriminate).
    reflexivity.
  - rewrite bool_decide_eq_false_2 by (intros [? ?]; discriminate).
    reflexivity.
Qed.

(** [load_yaml] hands over nothing but the loaded mapping, and only when
    it has both keys. *)
Lemma load_yaml_returns (input : string) (printed : list string)
    (data : yaml) :
  load_yaml open_yaml input = (printed, Return data) ->
  exists doc, open_yaml input = Document doc
              /\ data = or_else doc (YDict [])
              /\ has_key "roles" data = true
              /\ has_key "tasks" data = true.
Proof.
  unfold load_yaml.
  destruct (open_yaml input) as [|e|doc]; try discriminate.
  intros Hload. exists doc. split; [reflexivity|].
  destruct (or_else doc (YDict [])) as [| | | |s|items|entries];
    try discriminate.
  - cbn [contains_key] in Hload. rewrite PyFacts.bind_ret in Hload.
    destruct (PyStr.contains "roles" s); [|discriminate].
    cbn [negb] in Hload. rewrite fmap_ret, PyFacts.bind_ret in Hload.
    destruct (PyStr.contains "tasks" s); discriminate.
  - cbn [contains_key] in Hload. rewrite PyFacts.bind_ret in Hload.
    destruct (existsb (is_str "roles") items); [|discriminate].
    cbn [negb] in Hload. rewrite fmap_ret, PyFacts.bind_ret in Hload.
    destruct (existsb (is_str "tasks") items); discriminate.
  - cbn [contains_key] in Hload. rewrite PyFacts.bind_ret in Hload.
    destruct (bool_decide (is_Some (lookup_key entries "roles"))) eqn:Hr;
      [|discriminate].
    cbn [negb] in Hload. rewrite fmap_ret, PyFacts.bind_ret in Hload.
    destruct (bool_decide (is_Some (lookup_key entries "tasks"))) eqn:Ht;
      [|discriminate].
    cbn [negb subscript] in Hload.
    destruct (lookup_key entries "roles") as [roles|] eqn:Hroles;
      [|discriminate].
    rewrite PyFacts.bind_ret in Hload.
    destruct (is_list roles); [|discriminate].
    cbn [negb] in Hload.
    destruct (lookup_key entries "tasks") as [tasks|] eqn:Htasks;
      [|discriminate].
    rewrite fmap_ret, PyFacts.bind_ret in Hload.
    destruct (is_list tasks); [|discriminate].
    cbn [negb] in Hload. injection Hload as _ <-.
    cbn [has_key]. rewrite Hroles, Htasks. auto.
Qed.

(** The only [sys.exit] of [load_yaml] has the code 1. *)
Lemma load_yaml_exit_code (input : string) (printed : list string)
    (code : Z) :
  load_yaml open_yaml input = (printed, Raise (SystemExit code)) ->
  code = 1%Z.
Proof.
  unfold load_yaml.
  destruct (open_yaml input) as [|e|doc].
  - intros H. now injection H as _ <-.
  - intros H. now injection H as _ <-.
  - destruct (or_else doc (YDict [])) as [| | | |s|items|entries];
      cbn [contains_key]; try discriminate;
      rewrite PyFacts.bind_ret.
    + destruct (PyStr.contains "roles" s);
        [|intros H; now injection H as _ <-].
      cbn [negb]. rewrite fmap_ret, PyFacts.bind_ret.
      destruct (PyStr.contains "tasks" s);
        [discriminate | intros H; now injection H as _ <-].
    + destruct (existsb (is_str "roles") items);
        [|intros H; now injection H as _ <-].
      cbn [negb]. rewrite fmap_ret, PyFacts.bind_ret.
      destruct (existsb (is_str "tasks") items);
        [discriminate | intros H; now injection H as _ <-].
    + destruct (bool_decide (is_Some (lookup_key entries "roles")));
        [|intros H; now injection H as _ <-].
      cbn [negb]. rewrite fmap_ret, PyFacts.bind_ret.
      destruct (bool_decide (is_Some (lookup_key entries "tasks")));
        [|intros H; now injection H as _ <-].
      cbn [negb subscript].
      destruct (lookup_key entries "roles") as [roles|]; [|discriminate].
      rewrite PyFacts.bind_ret.
      destruct (is_list roles); [|intros H; now injection H as _ <-].
      cbn [negb].
      destruct (lookup_key entries "tasks") as [tasks|]; [|discriminate].
      rewrite fmap_ret, PyFacts.bind_ret.
      destruct (is_list tasks);
        [discriminate | intros H; now injection H as _ <-].
Qed.

(** Whatever the document is, when it is not a mapping that has both keys
    the run ends with exit status 1 and saves nothing. *)
Lemma missing_keys_never_save (input output : string) (doc : yaml) :
  open_yaml input = Document doc ->
  has_key "roles" doc = false \/ has_key "tasks" doc = false ->
  exit_status (main str open_yaml input output) = 1%Z
  /\ forall saved, outcome (main str open_yaml input output) <> Return saved.
Proof.
  intros Hopen Hmissing. unfold main.
  destruct (load_yaml open_yaml input) as [printed [data|e]] eqn:Hload.
  - exfalso.
    apply load_yaml_returns in Hload as (doc' & Hopen' & -> & Hr & Ht).
    rewrite Hopen in Hopen'. injection Hopen' as <-.
    unfold or_else in Hr, Ht.
    destruct (truthy doc); [destruct Hmissing; congruence|].
    discriminate.
  - rewrite PyFacts.bind_raise. split; [|discriminate].
    destruct e as [v|key|msg|msg|code]; try reflexivity.
    now rewrite (load_yaml_exit_code _ _ _ Hload).
Qed.

(** C9, as amended: when the parsed RACI document is a mapping, or is
    empty or otherwise false (the loader then takes the empty mapping for
    it), and lacks the key 'roles' or the key 'tasks', the generator
    prints the message "Error: YAML must contain 'roles' and 'tasks'
    keys." to standard error and calls [sys.exit(1)]: the exit status is 1
    and no spreadsheet is saved. *)
Theorem C9_missing_key_exits_1 (input output : string) (doc : yaml)
    (entries : list (yaml * yaml)) :
  open_yaml input = Document doc ->
  or_else doc (YDict []) = YDict entries ->
  lookup_key entries "roles" = None \/ lookup_key entries "tasks" = None ->
  main str open_yaml input output
  = (["Error: YAML must contain 'roles' and 'tasks' keys."],
     Raise (SystemExit 1))
  /\ exit_status (main str open_yaml input output) = 1%Z
  /\ stderr (main str open_yaml input output)
     = ["Error: YAML must contain 'roles' and 'tasks' keys."]
  /\ forall saved, outcome (main str open_yaml input output) <> Return saved.
Proof.
  intros Hopen Hdata Hmissing.
  assert (Hmain : main str open_yaml input output
                  = (["Error: YAML must contain 'roles' and 'tasks' keys."],
                     Raise (SystemExit 1))).
  { unfold main.
    now rewrite (load_yaml_missing_key input doc entries Hopen Hdata Hmissing). }
  rewrite Hmain. repeat split. discriminate.
Qed.

End WithFiles.

(** C9 as stated, for every parsed document, fails on a document that is
    no mapping: the document [5] is parsed and has neither key, yet the
    generator prints no message and does not call [sys.exit]; the test
    ['roles' not in data] raises a [TypeError] that nothing catches, and
    the string ['roles and tasks'], which has no key either, passes both
    tests and fails at [data['roles']]. *)
Lemma C9_counterexample :
  (has_key "roles" (YInt 5) = false
   /\ main text_of (fun _ => Document (YInt 5)) "raci_input.yaml" "raci.xlsx"
      = ([], Raise (TypeError "argument is not iterable")))
  /\ (has_key "roles" (YStr "roles and tasks") = false
      /\ main text_of (fun _ => Document (YStr "roles and tasks"))
              "raci_input.yaml" "raci.xlsx"
         = ([], Raise (TypeError "indices must be integers"))).
Proof. split; split; reflexivity. Qed.

Lemma C9_witness :
  main text_of (fun _ => Document sample_without_tasks)
       "raci_input.yaml" "raci.xlsx"
  = (["Error: YAML must contain 'roles' and 'tasks' keys."],
     Raise (SystemExit 1)).
Proof.
  apply (C9_missing_key_exits_1 text_of
           (fun _ => Document sample_without_tasks)
           "raci_input.yaml" "raci.xlsx" sample_without_tasks
           [(YStr "roles", YList [YStr "IR Lead"; YStr "IT Team"])]).
  - reflexivity.
  - reflexivity.
  - right. reflexivity.
Defined.

End RaciFacts.

(** ** More on the email posture checker *)

Module EmailMoreFacts.
Import PyStr EmailChecker EmailCli.

(** *** The text of a TXT rdata *)

Lemma append_cons (x : ascii) (a b : string) :
  String x a ++ b = String x (a ++ b).
Proof. reflexivity. Qed.

Lemma append_assoc (a b c : string) : (a ++ b) ++ c = a ++ (b ++ c).
Proof.
  induction a as [|x a IH]; [reflexivity|].
  now rewrite !append_cons, IH.
Qed.

Lemma append_empty_r (a : string) : a ++ "" = a.
Proof.
  induction a as [|x a IH]; [reflexivity|]. now rewrite append_cons, IH.
Qed.

Lemma lstrip_by_keep (drop : ascii -> bool) (c : ascii) (s : string) :
  drop c = false -> lstrip_by drop (String c s) = String c s.
Proof. intros H. cbn [lstrip_by]. now rewrite H. Qed.

Lemma rstrip_by_cons (drop : ascii -> bool) (c : ascii) (s : string) :
  rstrip_by drop (String c s)
  = match rstrip_by drop s with
    | EmptyString => if drop c then EmptyString else String c EmptyString
    | r => String c r
    end.
Proof. reflexivity. Qed.

Lemma rstrip_by_keep (drop : ascii -> bool) (s : string) (c : ascii) :
  drop c = false -> rstrip_by drop (s ++ String c "") = s ++ String c "".
Proof.
  intros H. induction s as [|a s IH].
  - change ("" ++ String c "") with (String c ""). rewrite rstrip_by_cons.
    cbn [rstrip_by]. now rewrite H.
  - rewrite append_cons, rstrip_by_cons, IH.
    destruct s; reflexivity.
Qed.

Lemma rstrip_by_drop (drop : ascii -> bool) (s : string) (c : ascii) :
  drop c = true -> rstrip_by drop (s ++ String c "") = rstrip_by drop s.
Proof.
  intros H. induction s as [|a s IH].
  - change ("" ++ String c "") with (String c ""). rewrite rstrip_by_cons.
    cbn [rstrip_by]. now rewrite H.
  - now rewrite append_cons, !rstrip_by_cons, IH.
Qed.

(** The strings of an rdata, each two separated by a quote, a space and a
    quote: the text of the rdata without its first and last quote. *)
Lemma rdata_text_inner (parts : list string) :
  parts <> [] ->
  rdata_text parts = String dquote (join quoted_gap parts ++ String dquote "").
Proof.
  unfold rdata_text. induction parts as [|p parts IH]; [congruence|].
  intros _. destruct parts as [|q parts]; [reflexivity|].
  change (join " " (quoted <$> p :: q :: parts))
    with (quoted p ++ " " ++ join " " (quoted <$> q :: parts)).
  change (join quoted_gap (p :: q :: parts))
    with (p ++ quoted_gap ++ join quoted_gap (q :: parts)).
  rewrite IH by discriminate. unfold quoted, quoted_gap.
  rewrite !append_cons, !append_assoc. reflexivity.
Qed.

Lemma mem_char_app (c : ascii) (a b : string) :
  mem_char c (a ++ b) = mem_char c a || mem_char c b.
Proof.
  induction a as [|x a IH]; [reflexivity|].
  rewrite append_cons. cbn [mem_char]. now rewrite IH, orb_assoc.
Qed.

(** A string that is not empty ends with a character. *)
Lemma last_char (s : string) :
  s <> "" -> exists front c, s = front ++ String c "".
Proof.
  induction s as [|x s IH]; [congruence|]. intros _.
  destruct s as [|y s].
  - now exists "", x.
  - destruct IH as (front & c & ->); [discriminate|].
    now exists (String x front), c.
Qed.

Lemma inner_ends (parts : list string) :
  parts <> [] -> Forall plain_part parts ->
  (exists c rest, join quoted_gap parts = String c rest
                  /\ Ascii.eqb c dquote = false)
  /\ (exists front c, join quoted_gap parts = front ++ String c ""
                      /\ Ascii.eqb c dquote = false).
Proof.
  intros Hne Hall. split.
  - destruct Hall as [|p parts [Hp Hfree] _]; [congruence|].
    destruct p as [|c p]; [congruence|].
    exists c. cbn [mem_char] in Hfree.
    apply orb_false_iff in Hfree as [Hc _]. rewrite Ascii.eqb_sym in Hc.
    destruct parts as [|q parts]; eexists; split; try eassumption;
      reflexivity.
  - induction Hall as [|p parts [Hp Hfree] Hall IH]; [congruence|].
    destruct parts as [|q parts].
    + destruct (last_char p Hp) as (front & c & ->).
      exists front, c. split; [reflexivity|].
      rewrite mem_char_app in Hfree. cbn [mem_char] in Hfree.
      apply orb_false_iff in Hfree as [_ Hc].
      apply orb_false_iff in Hc as [Hc _]. now rewrite Ascii.eqb_sym.
    + destruct IH as (front & c & Heq & Hc); [discriminate|].
      change (join quoted_gap (p :: q :: parts))
        with (p ++ quoted_gap ++ join quoted_gap (q :: parts)).
      rewrite Heq. exists (p ++ quoted_gap ++ front), c.
      split; [now rewrite !append_assoc | assumption].
Qed.

Lemma replace_from_free (new s rest : string) :
  mem_char dquote s = false ->
  replace_from quoted_gap new 0 (s ++ rest)
  = s ++ replace_from quoted_gap new 0 rest.
Proof.
  induction s as [|c s IH]; [reflexivity|]. intros Hfree.
  cbn [mem_char] in Hfree. apply orb_false_iff in Hfree as [Hc Hfree].
  rewrite !append_cons. cbn [replace_from startswith quoted_gap].
  rewrite Hc. now rewrite IH.
Qed.

Lemma replace_from_gap (rest : string) :
  replace_from quoted_gap " " 0 (quoted_gap ++ rest)
  = " " ++ replace_from quoted_gap " " 0 rest.
Proof. reflexivity. Qed.

Lemma replace_inner (parts : list string) :
  Forall plain_part parts ->
  replace quoted_gap " " (join quoted_gap parts) = join " " parts.
Proof.
  unfold replace. induction 1 as [|p parts [Hp Hfree] Hall IH];
    [reflexivity|].
  destruct parts as [|q parts].
  - cbn [join]. rewrite <- (append_empty_r p) at 1.
    rewrite replace_from_free by assumption. cbn [replace_from].
    apply append_empty_r.
  - change (join quoted_gap (p :: q :: parts))
      with (p ++ quoted_gap ++ join quoted_gap (q :: parts)).
    change (join " " (p :: q :: parts))
      with (p ++ " " ++ join " " (q :: parts)).
    now rewrite replace_from_free, replace_from_gap, IH.
Qed.

(** X1: the text recorded for a TXT rdata is its strings joined by single
    spaces: the quotes around the strings are removed, whatever the number
    of strings (each one not empty and free of double quotes). *)
Theorem lookup_joins_strings resolve (name : string)
    (rdatas : list (list string)) :
  resolve name = Answers (rdata_text <$> rdatas) ->
  Forall (fun parts => parts <> [] /\ Forall plain_part parts) rdatas ->
  lookup_txt_records resolve name = join " " <$> rdatas.
Proof.
  intros Hanswer Hall. unfold lookup_txt_records. rewrite Hanswer.
  clear Hanswer. induction Hall as [|parts rdatas [Hne Hplain] _ IH]; [reflexivity|].
  cbn [fmap list_fmap map] in *. f_equal; [|exact IH].
  unfold clean_txt. rewrite (rdata_text_inner parts Hne).
  destruct (inner_ends parts Hne Hplain)
    as [(c & rest & Hfirst & Hc) (front & c' & Hlast & Hc')].
  assert (Hstrip : strip_chars (String dquote "")
                     (String dquote (join quoted_gap parts ++ String dquote ""))
                   = join quoted_gap parts).
  { unfold strip_chars, strip_by.
    assert (Hdrop : forall x, mem_char x (String dquote "")
                              = Ascii.eqb x dquote)
      by (intros x; cbn [mem_char]; apply orb_false_r).
    cbn [lstrip_by]. rewrite Hdrop, Ascii.eqb_refl.
    rewrite Hfirst at 1. rewrite append_cons.
    rewrite lstrip_by_keep by now rewrite Hdrop.
    rewrite <- append_cons, <- Hfirst.
    rewrite rstrip_by_drop by now rewrite Hdrop, Ascii.eqb_refl.
    rewrite Hlast. apply rstrip_by_keep. now rewrite Hdrop. }
  rewrite Hstrip. now apply replace_inner.
Qed.

Lemma lookup_joins_strings_witness :
  lookup_txt_records
    (fun _ => Answers [rdata_text ["v=spf1"; "include:example.com"; "-all"]])
    "example.com"
  = ["v=spf1 include:example.com -all"].
Proof.
  apply (lookup_joins_strings
           (fun _ => Answers
                       [rdata_text ["v=spf1"; "include:example.com"; "-all"]])
           "example.com" [["v=spf1"; "include:example.com"; "-all"]]).
  - reflexivity.
  - repeat constructor; discriminate.
Defined.

(** *** What [check_domain] reports *)

Lemma first_record_some_iff (test : string -> bool)
    (txt_records : list string) :
  is_Some (first_record test txt_records)
  <-> Exists (fun rec => test rec = true) txt_records.
Proof.
  induction txt_records as [|rec rest IH]; cbn [first_record].
  - split; [intros [? ?]; discriminate | intros H; inversion H].
  - destruct (test rec) eqn:Htest.
    + split; [intros _; now left | eauto].
    + rewrite IH. split; [now right|].
      intros H. apply Exists_cons in H as [H|H]; [congruence | assumption].
Qed.

Lemma first_record_passes (test : string -> bool)
    (txt_records : list string) (rec : string) :
  first_record test txt_records = Some rec -> test rec = true.
Proof.
  induction txt_records as [|r rest IH]; cbn [first_record]; [discriminate|].
  destruct (test r) eqn:Htest; [|assumption]. now intros [= <-].
Qed.

Lemma assess_spf_present (spf : option string) :
  fst (fst (assess_spf spf))
  = match spf with Some (String _ _) => true | _ => false end.
Proof. now destruct spf as [[|c s]|]. Qed.

Lemma assess_dmarc_present (dmarc : option string) :
  fst (fst (fst (assess_dmarc dmarc)))
  = match dmarc with Some (String _ _) => true | _ => false end.
Proof. now destruct dmarc as [[|c s]|]. Qed.

Lemma check_domain_spf_present resolve (domain : string)
    (selector : option string) :
  spf_present (check_domain resolve domain selector)
  = fst (fst (assess_spf (get_spf_record resolve domain))).
Proof.
  unfold check_domain.
  destruct (assess_spf _) as [[? ?] ?].
  destruct (assess_dmarc _) as [[[? ?] ?] ?].
  now destruct (get_dkim_record _ _ _) as [[[? ?] ?] ?].
Qed.

Lemma check_domain_dmarc_present resolve (domain : string)
    (selector : option string) :
  dmarc_present (check_domain resolve domain selector)
  = fst (fst (fst (assess_dmarc (get_dmarc_record resolve domain)))).
Proof.
  unfold check_domain.
  destruct (assess_spf _) as [[? ?] ?].
  destruct (assess_dmarc _) as [[[? ?] ?] ?].
  now destruct (get_dkim_record _ _ _) as [[[? ?] ?] ?].
Qed.

Lemma check_domain_dkim resolve (domain : string)
    (selector : option string) :
  (dkim_checked (check_domain resolve domain selector),
   dkim_present (check_domain resolve domain selector))
  = (fst (fst (fst (get_dkim_record resolve domain selector))),
     snd (fst (get_dkim_record resolve domain selector))).
Proof.
  unfold check_domain.
  destruct (assess_spf _) as [[? ?] ?].
  destruct (assess_dmarc _) as [[[? ?] ?] ?].
  now destruct (get_dkim_record _ _ _) as [[[? ?] ?] ?].
Qed.

Lemma is_spf_not_empty (rec : string) : is_spf rec = true -> rec <> "".
Proof. now intros H ->. Qed.

Lemma is_dmarc_not_empty (rec : string) : is_dmarc rec = true -> rec <> "".
Proof. now intros H ->. Qed.

(** X2: the presence flags of a posture say what the lookups found: SPF is
    present exactly when a TXT record of the domain starts with v=spf1,
    DMARC exactly when a TXT record at [_dmarc.] starts with v=dmarc1
    (both in any letter case), and DKIM, which is checked exactly when a
    selector is given, is present exactly when the selector name has any
    TXT record at all. *)
Theorem presence_flags resolve (domain : string) (selector : option string) :
  let posture := check_domain resolve domain selector in
  (spf_present posture = true
   <-> Exists (fun rec => startswith "v=spf1" (lower rec) = true)
              (lookup_txt_records resolve domain))
  /\ (dmarc_present posture = true
      <-> Exists (fun rec => startswith "v=dmarc1" (lower rec) = true)
                 (lookup_txt_records resolve ("_dmarc." ++ domain)))
  /\ (dkim_checked posture = true
      <-> exists s, selector = Some s /\ s <> "")
  /\ (dkim_present posture = true
      <-> exists s, selector = Some s /\ s <> ""
                    /\ lookup_txt_records resolve
                         (s ++ "._domainkey." ++ domain) <> []).
Proof.
  cbv zeta. split; [|split].
  - rewrite check_domain_spf_present, assess_spf_present.
    unfold get_spf_record.
    rewrite <- (first_record_some_iff is_spf).
    destruct (first_record is_spf _) as [rec|] eqn:Hfirst.
    + apply first_record_passes, is_spf_not_empty in Hfirst.
      destruct rec; [congruence|]. split; eauto.
    + split; [discriminate | intros [? ?]; discriminate].
  - rewrite check_domain_dmarc_present, assess_dmarc_present.
    unfold get_dmarc_record.
    rewrite <- (first_record_some_iff is_dmarc).
    destruct (first_record is_dmarc _) as [rec|] eqn:Hfirst.
    + apply first_record_passes, is_dmarc_not_empty in Hfirst.
      destruct rec; [congruence|]. split; eauto.
    + split; [discriminate | intros [? ?]; discriminate].
  - pose proof (check_domain_dkim resolve domain selector) as Hdkim.
    injection Hdkim as -> ->. unfold get_dkim_record.
    destruct selector as [[|c s]|].
    + split; (split; [discriminate|]); intros (s & [= <-] & H);
        [congruence | now destruct H].
    + destruct (lookup_txt_records resolve _) as [|first rest] eqn:Hrecs.
      * split; [split; [eauto using String|reflexivity]|].
        split; [discriminate|].
        intros (s' & [= <-] & _ & H). congruence.
      * rewrite EmailCheckerFacts.first_dkim_none.
        split; (split; [intros _|reflexivity]);
          exists (String c s); repeat split; try discriminate.
        rewrite Hrecs. discriminate.
    + split; (split; [discriminate|]); intros (s & [= ] & _).
Qed.


(** *** The SPF verdict *)

(** X3: for every record that is not empty, SPF is reported as present with
    the stripped record, the assessment is never empty, and it opens with
    one verdict on the [all] mechanism: "-all" wins over "~all", which
    wins over any other occurrence of the letters "all", wherever they
    stand in the record. *)
Theorem spf_verdict_precedence (spf : string) :
  spf <> "" ->
  let text := lower (strip spf) in
  let '(present, record, assessment) := assess_spf (Some spf) in
  present = true
  /\ record = strip spf
  /\ assessment <> ""
  /\ (contains " -all" text = true ->
      startswith "Restrictive policy (-all)." assessment = true)
  /\ (contains " -all" text = false -> contains " ~all" text = true ->
      startswith "Soft fail policy (~all)." assessment = true)
  /\ (contains " -all" text = false -> contains " ~all" text = false ->
      contains "all" text = true ->
      startswith "Permissive 'all' mechanism." assessment = true).
Proof.
  intros Hne. destruct spf as [|c s]; [congruence|].
  unfold assess_spf. cbv zeta.
  generalize (lower (strip (String c s))). intros text.
  cbv beta iota.
  split; [reflexivity|]. split; [reflexivity|].
  generalize (contains " -all" text), (contains " ~all" text),
    (contains " ?all" text), (contains "all" text),
    (contains "include:" text),
    (contains " ip4:" text || contains " ip6:" text),
    (contains " redirect=" text).
  clear. intros [] [] [] [] [] [] [];
    lazy; repeat split; intros;
    first [reflexivity | discriminate | congruence].
Qed.

Lemma spf_verdict_precedence_witness :
  startswith "Restrictive policy (-all)."
             (snd (assess_spf (Some "v=spf1 ~all include:x.example -all")))
  = true.
Proof.
  pose proof (spf_verdict_precedence "v=spf1 ~all include:x.example -all")
    as H.
  cbv zeta in H.
  destruct (assess_spf (Some "v=spf1 ~all include:x.example -all"))
    as [[present record] assessment].
  destruct H as (_ & _ & _ & Hall & _); [discriminate|].
  apply Hall. reflexivity.
Defined.

(** *** The notes *)

Lemma check_domain_notes resolve (domain : string)
    (selector : option string) :
  let posture := check_domain resolve domain selector in
  notes posture
  = join " "
      (let n1 := if negb (spf_present posture) then ["SPF missing."] else [] in
       let n2 := if negb (dmarc_present posture)
                 then append n1 "DMARC missing." else n1 in
       let n3 := if dmarc_present posture
                    && String.eqb (dmarc_policy posture) "none"
                 then append n2 "DMARC monitoring only (p=none)." else n2 in
       if dkim_checked posture && negb (dkim_present posture)
       then append n3 ("DKIM selector '"
                         ++ (get_dkim_record resolve domain selector).1.1.2
                         ++ "' not found for this domain.")
       else n3).
Proof.
  unfold check_domain.
  destruct (assess_spf _) as [[? ?] ?].
  destruct (assess_dmarc _) as [[[? ?] ?] ?].
  now destruct (get_dkim_record _ _ _) as [[[? ?] ?] ?].
Qed.

(** X4: the notes of a posture are empty exactly when nothing is amiss: SPF
    and DMARC are present, the DMARC policy is not "none", and DKIM, when
    it is checked, is present. *)
Theorem notes_empty_iff resolve (domain : string)
    (selector : option string) :
  let posture := check_domain resolve domain selector in
  notes posture = ""
  <-> spf_present posture = true
      /\ dmarc_present posture = true
      /\ dmarc_policy posture <> "none"
      /\ (dkim_checked posture = true -> dkim_present posture = true).
Proof.
  cbv zeta. rewrite check_domain_notes. cbv zeta.
  generalize (get_dkim_record resolve domain selector).1.1.2.
  intros sel.
  destruct (spf_present _), (dmarc_present _), (dkim_checked _),
    (dkim_present _);
    destruct (String.eqb_spec (dmarc_policy
                (check_domain resolve domain selector)) "none")
      as [Hnone|Hnone];
    cbn [negb andb append app join];
    (split; [intros H; try discriminate H | intros (? & ? & ? & Hd)]);
    try discriminate; try congruence; try (now repeat split);
    try (specialize (Hd eq_refl); discriminate).
Qed.


(** *** The domains of a run *)

Lemma ascii_compare_eq (a b : ascii) : Ascii.compare a b = Eq -> a = b.
Proof.
  unfold Ascii.compare. intros H. apply N.compare_eq in H.
  rewrite <- (ascii_N_embedding a), <- (ascii_N_embedding b). now rewrite H.
Qed.

Lemma compare_not_gt_trans (a b c : string) :
  String.compare a b <> Gt -> String.compare b c <> Gt ->
  String.compare a c <> Gt.
Proof.
  revert b c. induction a as [|x a IH]; intros [|y b] [|z c];
    cbn [String.compare]; try congruence.
  unfold Ascii.compare.
  destruct (N.compare_spec (N_of_ascii x) (N_of_ascii y)) as [Hxy|Hxy|Hxy];
    destruct (N.compare_spec (N_of_ascii y) (N_of_ascii z)) as [Hyz|Hyz|Hyz];
    destruct (N.compare_spec (N_of_ascii x) (N_of_ascii z)) as [Hxz|Hxz|Hxz];
    try congruence; try lia.
  apply IH.
Qed.

Lemma str_le_trans : Transitive str_le.
Proof.
  intros a b c. unfold str_le, String.leb. intros Hab Hbc.
  pose proof (compare_not_gt_trans a b c) as H.
  destruct (String.compare a b), (String.compare b c), (String.compare a c);
    try reflexivity; try discriminate; exfalso; apply H; congruence.
Qed.

Lemma str_le_total : Total str_le.
Proof. intros a b. apply String.leb_total. Qed.

Lemma truthy_iff (s : string) : truthy s = true <-> s <> "".
Proof. destruct s; cbn; split; congruence. Qed.

Lemma cleaned_spec (raw : list string) :
  StronglySorted str_le (cleaned raw)
  /\ NoDup (cleaned raw)
  /\ forall d, d ∈ cleaned raw <-> exists r, r ∈ raw /\ r <> "" /\ d = lower r.
Proof.
  unfold cleaned. split; [|split].
  - apply StronglySorted_merge_sort;
      [exact str_le_trans | exact str_le_total].
  - rewrite merge_sort_Permutation. apply NoDup_remove_dups.
  - intros d. rewrite merge_sort_Permutation, elem_of_remove_dups,
      list_elem_of_fmap.
    split.
    + intros (r & -> & Hr). apply list_elem_of_In, filter_In in Hr.
      destruct Hr as [Hr Ht]. exists r. split; [|split].
      * now apply list_elem_of_In.
      * now apply truthy_iff.
      * reflexivity.
    + intros (r & Hr & Hne & ->). exists r. split; [reflexivity|].
      apply list_elem_of_In, filter_In. split.
      * now apply list_elem_of_In.
      * now apply truthy_iff.
Qed.

Lemma domain_of_line_some (line d : string) :
  domain_of_line line = Some d
  <-> d = strip line /\ d <> "" /\ startswith "#" d = false.
Proof.
  unfold domain_of_line.
  destruct (truthy (strip line)) eqn:Ht;
    destruct (startswith "#" (strip line)) eqn:Hs; cbn [andb negb];
    split; try discriminate.
  - intros (-> & _ & H). congruence.
  - intros [= <-]. split; [reflexivity|]. split; [|exact Hs].
    now apply truthy_iff.
  - intros (-> & _ & _). reflexivity.
  - intros (-> & H & _). apply truthy_iff in H. congruence.
  - intros (-> & H & _). apply truthy_iff in H. congruence.
Qed.

Lemma given_some (text : option string) :
  given text = true <-> exists path, text = Some path /\ path <> "".
Proof.
  destruct text as [path|]; cbn [given]; split.
  - intros H. exists path. split; [reflexivity|]. now apply truthy_iff.
  - intros (? & [= <-] & H). now apply truthy_iff.
  - discriminate.
  - intros (? & [=] & _).
Qed.

Section Domains.
Variable read_lines : string -> option (list string).

Lemma collected_spec (args : arguments) (raw : list string) (r : string) :
  collected read_lines args = Some raw ->
  r ∈ raw
  <-> r ∈ default [] (arg_domain args)
      \/ exists path lines line,
           arg_input args = Some path /\ path <> ""
           /\ read_lines path = Some lines /\ line ∈ lines
           /\ r = strip line /\ r <> "" /\ startswith "#" r = false.
Proof.
  unfold collected. destruct (given (arg_input args)) eqn:Hgiven.
  - apply given_some in Hgiven. destruct Hgiven as (path & Hpath & Hne).
    rewrite Hpath. change (default "" (Some path)) with path.
    destruct (read_lines path) as [lines|] eqn:Hread;
      cbn [mbind option_bind]; [|discriminate].
    intros [= <-].
    rewrite elem_of_app, list_elem_of_omap. split.
    + intros [Hr|(line & Hline & Hd)]; [now left|right].
      apply domain_of_line_some in Hd. destruct Hd as (-> & Hd & Hs).
      exists path, lines, line. repeat split; assumption.
    + intros [Hr|(path' & lines' & line & [= <-] & _ & Hread' & Hline
                   & -> & Hd & Hs)]; [now left|right].
      rewrite Hread in Hread'. injection Hread' as <-.
      exists line. split; [exact Hline|].
      apply domain_of_line_some. repeat split; assumption.
  - intros [= <-]. split; [now left|].
    intros [Hr|(path & _ & _ & Hpath & Hne & _)]; [exact Hr|].
    assert (given (arg_input args) = true) as Hyes
      by (apply given_some; now exists path).
    congruence.
Qed.

(** X5: when the [--domain] values and the lines of the [--input] file
    are ASCII text, the domains of a run are in ascending order with none
    repeated, and they are exactly the lower-cased forms of the non-empty
    [--domain] values, taken as they are, and of the stripped lines of the
    [--input] file that are neither empty nor comments. *)
Theorem load_domains_sorted_set (args : arguments) (domains : list string) :
  load_domains read_lines args = Some domains ->
  Forall ascii_text (default [] (arg_domain args)) ->
  (forall path lines,
      arg_input args = Some path -> read_lines path = Some lines ->
      Forall ascii_text lines) ->
  StronglySorted str_le domains
  /\ NoDup domains
  /\ forall d,
       d ∈ domains
       <-> exists r,
             d = lower r /\ r <> ""
             /\ (r ∈ default [] (arg_domain args)
                 \/ exists path lines line,
                      arg_input args = Some path /\ path <> ""
                      /\ read_lines path = Some lines /\ line ∈ lines
                      /\ r = strip line /\ startswith "#" r = false).
Proof.
  unfold load_domains.
  destruct (collected read_lines args) as [raw|] eqn:Hraw; [|discriminate].
  cbn [fmap option_fmap option_map]. intros [= <-] _ _.
  destruct (cleaned_spec raw) as (Hsorted & Hnodup & Hmem).
  split; [exact Hsorted|]. split; [exact Hnodup|].
  intros d. rewrite Hmem. split.
  - intros (r & Hr & Hne & ->). exists r.
    split; [reflexivity|]. split; [exact Hne|].
    apply (collected_spec args raw r Hraw) in Hr.
    destruct Hr as [Hr|(path & lines & line & H1 & H2 & H3 & H4 & H5 & _
                        & H6)]; [now left|right].
    exists path, lines, line. repeat split; assumption.
  - intros (r & -> & Hne & Hr). exists r.
    split; [|split; [exact Hne|reflexivity]].
    apply (collected_spec args raw r Hraw).
    destruct Hr as [Hr|(path & lines & line & H1 & H2 & H3 & H4 & H5 & H6)];
      [now left|right].
    exists path, lines, line. repeat split; try assumption.
Qed.

End Domains.

Lemma cleaned_spec_of_load read_lines (args : arguments)
    (domains : list string) :
  load_domains read_lines args = Some domains ->
  StronglySorted str_le domains /\ NoDup domains.
Proof.
  unfold load_domains.
  destruct (collected read_lines args) as [raw|]; [|discriminate].
  cbn [fmap option_fmap option_map]. intros [= <-].
  destruct (cleaned_spec raw) as (Hsorted & Hnodup & _). now split.
Qed.

Lemma load_domains_sorted_set_witness :
  StronglySorted str_le ["a.example"; "b.example"; "example.com"]
  /\ NoDup ["a.example"; "b.example"; "example.com"].
Proof.
  destruct (load_domains_sorted_set sample_lines sample_arguments
              ["a.example"; "b.example"; "example.com"] eq_refl)
    as (Hsorted & Hnodup & _).
  - repeat constructor.
  - intros path lines _ Hlines. injection Hlines as <-.
    repeat constructor.
  - split; [exact Hsorted | exact Hnodup].
Defined.


(** *** A run of the checker *)

Lemma check_domain_domain resolve (d : string) (selector : option string) :
  domain (check_domain resolve d selector) = d.
Proof.
  unfold check_domain.
  destruct (assess_spf _) as [[? ?] ?].
  destruct (assess_dmarc _) as [[[? ?] ?] ?].
  now destruct (get_dkim_record _ _ _) as [[[? ?] ?] ?].
Qed.

Lemma fmap_check_domain_domain resolve (selector : option string)
    (domains : list string) :
  domain <$> ((fun d => check_domain resolve d selector) <$> domains)
  = domains.
Proof.
  induction domains as [|d domains IH]; [reflexivity|].
  cbn [fmap list_fmap]. rewrite check_domain_domain. f_equal. exact IH.
Qed.

Lemma main_some resolve read_lines (args : arguments)
    (results : list DomainEmailPosture) (out : option string) :
  main resolve read_lines args = Some (results, out) ->
  exists domains,
    load_domains read_lines args = Some domains
    /\ results
       = (fun d => check_domain resolve d (arg_dkim_selector args))
           <$> domains
    /\ out = if given (arg_output args)
                && match domains with [] => false | _ => true end
             then arg_output args else None.
Proof.
  unfold main.
  destruct (load_domains read_lines args) as [domains|];
    cbn [mbind option_bind]; [|discriminate].
  intros H. exists domains. split; [reflexivity|].
  destruct domains as [|d domains]; injection H as <- <-.
  - split; [reflexivity|]. now rewrite andb_false_r.
  - split; reflexivity.
Qed.

(** X6: a run that gets past reading its input reports every domain of
    [load_domains] once, in ascending order, each report being the check
    of its own domain with the selector of the command line; and it
    exports a CSV file exactly when [--output] is given and not empty and
    there is at least one report. *)
Theorem main_reports_each_domain_once resolve read_lines
    (args : arguments) (results : list DomainEmailPosture)
    (out : option string) :
  main resolve read_lines args = Some (results, out) ->
  load_domains read_lines args = Some (domain <$> results)
  /\ StronglySorted str_le (domain <$> results)
  /\ NoDup (domain <$> results)
  /\ Forall (fun res => res = check_domain resolve (domain res)
                                (arg_dkim_selector args)) results
  /\ forall path,
       out = Some path
       <-> arg_output args = Some path /\ path <> "" /\ results <> [].
Proof.
  intros Hmain.
  destruct (main_some resolve read_lines args results out Hmain)
    as (domains & Hload & -> & ->).
  destruct (cleaned_spec_of_load read_lines args domains Hload)
    as (Hsorted & Hnodup).
  rewrite fmap_check_domain_domain.
  split; [exact Hload|]. split; [exact Hsorted|]. split; [exact Hnodup|].
  split.
  { apply Forall_fmap, Forall_forall. intros d _. cbn.
    now rewrite check_domain_domain. }
  intros path. destruct (given (arg_output args)) eqn:Hgiven.
  - apply given_some in Hgiven. destruct Hgiven as (p & Hp & Hne).
    rewrite Hp. destruct domains as [|d domains]; cbn [fmap list_fmap andb].
    + split; [discriminate|]. now intros (_ & _ & H).
    + split.
      * intros [= <-]. now repeat split.
      * now intros (H & _).
  - cbn [andb]. split; [discriminate|]. intros (H & Hne & _).
    assert (given (arg_output args) = true) as Hyes
      by (apply given_some; now exists path).
    congruence.
Qed.

Lemma main_reports_each_domain_once_witness :
  NoDup
    (domain <$> ((fun d => check_domain (fun _ => Raises NXDOMAIN) d None)
                   <$> ["a.example"; "b.example"; "example.com"])).
Proof.
  exact (proj1 (proj2 (proj2
    (main_reports_each_domain_once (fun _ => Raises NXDOMAIN) sample_lines
       sample_arguments _ None eq_refl)))).
Defined.


(** *** The tags of a DMARC record *)

Lemma lower_char_idem (c : ascii) : lower_char (lower_char c) = lower_char c.
Proof. destruct c as [[] [] [] [] [] [] [] []]; reflexivity. Qed.

Lemma is_space_lower_char (c : ascii) : is_space (lower_char c) = is_space c.
Proof. destruct c as [[] [] [] [] [] [] [] []]; reflexivity. Qed.

Lemma lower_idem (s : string) : lower (lower s) = lower s.
Proof.
  induction s as [|c s IH]; [reflexivity|].
  cbn [lower]. now rewrite lower_char_idem, IH.
Qed.

Lemma lstrip_lower (s : string) :
  lstrip_by is_space (lower s) = lower (lstrip_by is_space s).
Proof.
  induction s as [|c s IH]; [reflexivity|].
  cbn [lower lstrip_by]. rewrite is_space_lower_char.
  now destruct (is_space c).
Qed.

Lemma rstrip_lower (s : string) :
  rstrip_by is_space (lower s) = lower (rstrip_by is_space s).
Proof.
  induction s as [|c s IH]; [reflexivity|].
  cbn [lower]. rewrite !rstrip_by_cons, IH, is_space_lower_char.
  destruct (rstrip_by is_space s); [|reflexivity].
  now destruct (is_space c).
Qed.

Lemma strip_lower (s : string) : strip (lower s) = lower (strip s).
Proof. unfold strip, strip_by. now rewrite lstrip_lower, rstrip_lower. Qed.

Lemma rstrip_by_idem (drop : ascii -> bool) (s : string) :
  rstrip_by drop (rstrip_by drop s) = rstrip_by drop s.
Proof.
  induction s as [|c s IH]; [reflexivity|].
  rewrite rstrip_by_cons.
  destruct (rstrip_by drop s) as [|a r] eqn:Hr.
  - destruct (drop c) eqn:Hc; [reflexivity|].
    rewrite rstrip_by_cons. cbn [rstrip_by]. now rewrite Hc.
  - rewrite rstrip_by_cons, IH. reflexivity.
Qed.

Lemma lstrip_by_head (drop : ascii -> bool) (s : string) :
  lstrip_by drop s = ""
  \/ exists c t, lstrip_by drop s = String c t /\ drop c = false.
Proof.
  induction s as [|c s IH]; [now left|].
  cbn [lstrip_by]. destruct (drop c) eqn:Hc; [exact IH|].
  right. now exists c, s.
Qed.

Lemma strip_by_idem (drop : ascii -> bool) (s : string) :
  strip_by drop (strip_by drop s) = strip_by drop s.
Proof.
  unfold strip_by.
  assert (lstrip_by drop (rstrip_by drop (lstrip_by drop s))
          = rstrip_by drop (lstrip_by drop s)) as ->.
  { destruct (lstrip_by_head drop s) as [->|(c & t & -> & Hc)];
      [reflexivity|].
    rewrite rstrip_by_cons. rewrite Hc.
    destruct (rstrip_by drop t); now apply lstrip_by_keep. }
  apply rstrip_by_idem.
Qed.

Lemma strip_idem (s : string) : strip (strip s) = strip s.
Proof. apply strip_by_idem. Qed.

Lemma add_tag_normalised (tags : gmap string string) (part : string) :
  map_Forall (fun k v => lower k = k /\ strip k = k /\ strip v = v) tags ->
  map_Forall (fun k v => lower k = k /\ strip k = k /\ strip v = v)
             (add_tag tags part).
Proof.
  intros Htags. unfold add_tag.
  destruct (contains "=" (strip part)); [|exact Htags].
  destruct (split1 _ (strip part)) as [[k v]|]; [|exact Htags].
  apply map_Forall_insert_2; [|exact Htags].
  split; [apply lower_idem|]. split; [|apply strip_idem].
  now rewrite strip_lower, strip_idem.
Qed.

(** X7: every tag that [parse_dmarc_tag] finds has a name in lower case, and
    neither the name nor the value begins or ends with white space:
    whatever the letter case and the spacing of the record, a tag is found
    under its lower-case name. *)
Theorem dmarc_tags_normalised (record k v : string) :
  parse_dmarc_tag record !! k = Some v ->
  lower k = k /\ strip k = k /\ strip v = v.
Proof.
  unfold parse_dmarc_tag. intros Hk.
  assert (forall parts tags,
            map_Forall (fun k v => lower k = k /\ strip k = k /\ strip v = v)
                       tags ->
            map_Forall (fun k v => lower k = k /\ strip k = k /\ strip v = v)
                       (foldl add_tag tags parts)) as Hfold.
  { induction parts as [|part parts IH]; intros tags Htags; [exact Htags|].
    cbn [foldl]. apply IH, add_tag_normalised, Htags. }
  exact (Hfold _ _ (map_Forall_empty _) k v Hk).
Qed.

Lemma dmarc_tags_normalised_witness :
  parse_dmarc_tag "V=DMARC1;  P = Reject ; pct=50" !! "p" = Some "Reject"
  /\ lower "p" = "p".
Proof.
  assert (parse_dmarc_tag "V=DMARC1;  P = Reject ; pct=50" !! "p"
          = Some "Reject") as H by (vm_compute; reflexivity).
  split; [exact H|].
  exact (proj1 (dmarc_tags_normalised _ _ _ H)).
Defined.


End EmailMoreFacts.

(** ** More on the readiness scorer *)

Module ScorerMoreFacts.
Import Py Scorer ScorerMore.
Local Open Scope Z_scope.

(** *** Reading the rows *)

Lemma read_rows_app (pre post : list csv_row) :
  forall scores,
    read_rows scores (pre ++ post)
    = read_rows scores pre ≫= fun m => read_rows m post.
Proof.
  induction pre as [|row pre IH]; intros scores.
  - cbn [app read_rows]. now rewrite PyFacts.bind_ret.
  - cbn [app read_rows].
    destruct (int_cell (question_id row)) as [q|];
      [destruct (int_cell (score row)) as [s|]|]; try reflexivity.
    destruct ((q <? MIN_Q_ID) || (q >? MAX_Q_ID)); [reflexivity|].
    destruct ((s <? MIN_SCORE) || (s >? MAX_SCORE)); [reflexivity|].
    apply IH.
Qed.

(** The rows are read without printing anything. *)
Lemma read_rows_silent (rows : list csv_row) :
  forall scores, fst (read_rows scores rows) = [].
Proof.
  induction rows as [|row rows IH]; intros scores; [reflexivity|].
  cbn [read_rows].
  destruct (int_cell (question_id row)) as [q|];
    [destruct (int_cell (score row)) as [s|]|]; try reflexivity.
  destruct ((q <? MIN_Q_ID) || (q >? MAX_Q_ID)); [reflexivity|].
  destruct ((s <? MIN_SCORE) || (s >? MAX_SCORE)); [reflexivity|].
  apply IH.
Qed.

(** The loop over the rows returns exactly when every row is accepted,
    and then the map holds the answers recorded in the order of the
    rows. *)
Lemma read_rows_returns_iff (rows : list csv_row) :
  forall scores result,
    read_rows scores rows = ([], Return result)
    <-> exists given,
          Forall2 accepted rows given /\ result = record_all scores given.
Proof.
  induction rows as [|row rows IH]; intros scores result.
  - split.
    + intros H. injection H as <-. exists []. split; [constructor|reflexivity].
    + intros (given & Hall & ->). apply Forall2_nil_inv_l in Hall as ->.
      reflexivity.
  - cbn [read_rows]. split.
    + destruct (int_cell (question_id row)) as [q|] eqn:Hq;
        [destruct (int_cell (score row)) as [s|] eqn:Hs|]; try discriminate.
      destruct ((q <? MIN_Q_ID) || (q >? MAX_Q_ID)) eqn:Hqr; [discriminate|].
      destruct ((s <? MIN_SCORE) || (s >? MAX_SCORE)) eqn:Hsr; [discriminate|].
      intros Hrest. apply IH in Hrest as (given & Hall & ->).
      exists ((q, s) :: given). split; [|reflexivity].
      constructor; [|assumption].
      unfold accepted, answers, MIN_Q_ID, MAX_Q_ID, MIN_SCORE, MAX_SCORE in *.
      cbn [fst snd]. repeat split; try assumption; lia.
    + intros (given & Hall & ->).
      apply Forall2_cons_inv_l in Hall
        as ([q s] & given' & ([Hq Hs] & Hqr & Hsr) & Hall & ->).
      cbn [fst snd] in *. rewrite Hq, Hs.
      unfold MIN_Q_ID, MAX_Q_ID, MIN_SCORE, MAX_SCORE.
      replace ((q <? 1) || (q >? 34)) with false by lia.
      replace ((s <? 0) || (s >? 3)) with false by lia.
      apply IH. now exists given'.
Qed.

Lemma record_all_non_empty (given : list (Z * Z)) :
  forall scores, scores <> ∅ -> record_all scores given <> ∅.
Proof.
  induction given as [|answer given IH]; intros scores Hne; [assumption|].
  apply IH, insert_non_empty.
Qed.

Lemma read_responses_returns_inv open_csv (path : string)
    (printed : list string) (responses : gmap Z Z) :
  read_responses open_csv path = (printed, Return responses) ->
  printed = []
  /\ exists fieldnames rows given,
       open_csv path = CsvFile (Some fieldnames) rows
       /\ "question_id" ∈ fieldnames /\ "score" ∈ fieldnames
       /\ rows <> []
       /\ Forall2 accepted rows given
       /\ responses = record_all ∅ given.
Proof.
  unfold read_responses.
  - destruct (open_csv path) as [|fieldnames rows]; [discriminate|].
    destruct (has_expected_cols fieldnames) eqn:Hcols; [|discriminate].
    cbn [negb].
    destruct (read_rows ∅ rows) as [printed' [scores|e]] eqn:Hread;
      [|discriminate].
    pose proof (read_rows_silent rows ∅) as Hsilent.
    rewrite Hread in Hsilent. cbn in Hsilent. subst printed'.
    unfold mbind, M_bind, bind.
    destruct (decide (scores = ∅)) as [Hempty|Hfull]; [discriminate|].
    cbn. intros H. injection H as <- <-. split; [reflexivity|].
    apply read_rows_returns_iff in Hread as (given & Hall & ->).
    unfold has_expected_cols in Hcols.
    destruct fieldnames as [fieldnames|]; cbn [default] in Hcols.
    + apply andb_true_iff in Hcols as [Hq Hs].
      apply bool_decide_eq_true in Hq, Hs.
      exists fieldnames, rows, given. repeat split; try assumption.
      intros ->. apply Forall2_nil_inv_l in Hall as ->. now apply Hfull.
    + apply andb_true_iff in Hcols as [Hq _].
      apply bool_decide_eq_true, elem_of_nil in Hq. contradiction.
Qed.

(** X8: for a file whose cells under the two columns are ASCII text, the
    scorer's input is accepted exactly when the file exists, its header
    has both columns, it has at least one row and every row is accepted;
    the responses are then the answers of the rows, recorded in order (a
    later row for a question replaces an earlier one), and nothing is
    printed. *)
Theorem read_responses_returns_iff open_csv (path : string)
    (printed : list string) (responses : gmap Z Z) :
  (forall fieldnames rows,
      open_csv path = CsvFile fieldnames rows -> Forall ascii_row rows) ->
  read_responses open_csv path = (printed, Return responses)
  <-> printed = []
      /\ exists fieldnames rows given,
           open_csv path = CsvFile (Some fieldnames) rows
           /\ "question_id" ∈ fieldnames /\ "score" ∈ fieldnames
           /\ rows <> []
           /\ Forall2 accepted rows given
           /\ responses = record_all ∅ given.
Proof.
  intros _.
  split; [apply read_responses_returns_inv|]. unfold read_responses.
  - intros (-> & fieldnames & rows & given & -> & Hq & Hs & Hrows & Hall & ->).
    unfold has_expected_cols. cbn [default].
    rewrite !bool_decide_eq_true_2 by assumption. cbn [andb negb].
    rewrite (proj2 (read_rows_returns_iff rows ∅ (record_all ∅ given)))
      by now exists given.
    unfold mbind, M_bind, bind.
    destruct (decide (record_all ∅ given = ∅)) as [Hempty|_]; [|reflexivity].
    exfalso. destruct Hall as [|row answer rows' given' _ _]; [congruence|].
    apply (record_all_non_empty given' (<[fst answer := snd answer]> ∅));
      [apply insert_non_empty | exact Hempty].
Qed.

Lemma read_responses_returns_iff_witness :
  exists fieldnames rows given,
    repeated_file "responses.csv" = CsvFile (Some fieldnames) rows
    /\ Forall2 accepted rows given
    /\ ({[ 7 := 2; 2 := 3 ]} : gmap Z Z) = record_all ∅ given.
Proof.
  destruct (proj1 (read_responses_returns_iff repeated_file "responses.csv"
                     [] {[ 7 := 2; 2 := 3 ]}
                     ltac:(intros ? ? [= <- <-]; repeat constructor))
                  eq_refl)
    as (_ & fieldnames & rows & given & Hopen & _ & _ & _ & Hall & Hmap).
  now exists fieldnames, rows, given.
Defined.

(** *** Rows for the same question *)

Lemma read_rows_other (rows : list csv_row) (q_id : Z) :
  forall scores printed result,
    read_rows scores rows = (printed, Return result) ->
    Forall (fun row => int_cell (question_id row) <> Some q_id) rows ->
    result !! q_id = scores !! q_id.
Proof.
  induction rows as [|row rows IH]; intros scores printed result Hread Hnone.
  - cbv [read_rows mret M_ret ret] in Hread. now simplify_eq.
  - apply Forall_cons in Hnone as [Hrow Hnone]. cbn [read_rows] in Hread.
    destruct (int_cell (question_id row)) as [q|];
      [destruct (int_cell (score row)) as [s|]|]; try discriminate.
    destruct ((q <? MIN_Q_ID) || (q >? MAX_Q_ID)); [discriminate|].
    destruct ((s <? MIN_SCORE) || (s >? MAX_SCORE)); [discriminate|].
    rewrite (IH _ _ _ Hread Hnone). apply lookup_insert_ne. congruence.
Qed.

(** X9: when a question has several rows, its last row decides: after a file
    is read, the score of a question is the one of the last row that
    names it. *)
Theorem last_row_wins (before after : list csv_row) (row : csv_row)
    (q_id s : Z) (scores result : gmap Z Z) (printed : list string) :
  read_rows scores (before ++ row :: after) = (printed, Return result) ->
  answers q_id s row ->
  Forall (fun later => int_cell (question_id later) <> Some q_id) after ->
  result !! q_id = Some s.
Proof.
  intros Hread [Hq Hs] Hafter. rewrite read_rows_app in Hread.
  apply RaciFacts.bind_returns in Hread as (p1 & m & p2 & _ & Hread).
  cbn [read_rows] in Hread. rewrite Hq, Hs in Hread.
  destruct ((q_id <? MIN_Q_ID) || (q_id >? MAX_Q_ID)); [discriminate|].
  destruct ((s <? MIN_SCORE) || (s >? MAX_SCORE)); [discriminate|].
  rewrite (read_rows_other _ _ _ _ _ Hread Hafter).
  apply lookup_insert_eq.
Qed.

Lemma last_row_wins_witness :
  exists result,
    read_rows ∅ [ {| question_id := Some "7"; score := Some "1" |};
                  {| question_id := Some "2"; score := Some "3" |};
                  {| question_id := Some "7"; score := Some "2" |} ]
    = ([], Return result)
    /\ result !! 7 = Some 2.
Proof.
  exists (<[7 := 2]> (<[2 := 3]> (<[7 := 1]> ∅))).
  split; [reflexivity|].
  apply (last_row_wins
           [ {| question_id := Some "7"; score := Some "1" |};
             {| question_id := Some "2"; score := Some "3" |} ]
           [] {| question_id := Some "7"; score := Some "2" |}
           7 2 ∅ _ []).
  - reflexivity.
  - split; reflexivity.
  - constructor.
Defined.

(** *** After the responses are read *)

Lemma summarise_valid (responses : gmap Z Z) :
  valid responses ->
  summarise responses
  = mret (let categories := with_answers responses <$> initial_categories in
          let '(total, max_total, normalized) :=
            compute_overall_score categories in
          {| categories := categories;
             overall_total := total;
             overall_max := max_total;
             normalized := normalized;
             maturity := classify_maturity normalized |}).
Proof.
  intros Hvalid. unfold summarise.
  rewrite (ScorerFacts.build_category_scores_eq responses Hvalid).
  rewrite PyFacts.bind_ret.
  now destruct (compute_overall_score
                  (with_answers responses <$> initial_categories))
    as [[total max_total] normalized].
Qed.

(** X10: reading and scoring end with exit status 0 exactly when the
    input is accepted, and with 1 otherwise: once the responses are read,
    computing the scores fails on nothing, and a rejected input ends in
    [sys.exit(1)] (file not found) or in a [ValueError] that escapes.
    (The printing of the summary and the optional report file come
    after.) *)
Theorem scorer_exit_status open_csv (path : string) :
  (exit_status (main open_csv path) = 0
   <-> exists responses,
         read_responses open_csv path = ([], Return responses))
  /\ (exit_status (main open_csv path) = 0
      \/ exit_status (main open_csv path) = 1).
Proof.
  unfold main.
  destruct (read_responses open_csv path) as [printed [responses|e]] eqn:Hread.
  - pose proof (ScorerFacts.read_responses_valid _ _ _ _ Hread) as Hvalid.
    apply read_responses_returns_inv in Hread as [-> _].
    change ([], Return responses)
      with (mret responses : M value_error (gmap Z Z)).
    rewrite PyFacts.bind_ret, (summarise_valid responses Hvalid).
    split; [|now left]. split; [now exists responses | reflexivity].
  - rewrite PyFacts.bind_raise.
    assert (Hone : exit_status ((printed, Raise e) : M value_error summary)
                   = 1).
    { unfold read_responses in Hread.
      destruct (open_csv path) as [|fieldnames rows].
      - now injection Hread as _ <-.
      - destruct (negb (has_expected_cols fieldnames));
          [now injection Hread as _ <-|].
        destruct (read_rows ∅ rows) as [printed' [scores|e']] eqn:Hrows.
        + unfold mbind, M_bind, bind in Hread.
          destruct (decide (scores = ∅)); cbn in Hread;
            [now injection Hread as _ <- | discriminate].
        + rewrite PyFacts.bind_raise in Hread. injection Hread as _ <-.
          clear -Hrows. revert Hrows. generalize (∅ : gmap Z Z).
          induction rows as [|row rows IH]; intros scores Hrows;
            [discriminate|].
          cbn [read_rows] in Hrows.
          destruct (int_cell (question_id row)) as [q|];
            [destruct (int_cell (score row)) as [s|]|];
            try (now injection Hrows as _ <-).
          destruct ((q <? MIN_Q_ID) || (q >? MAX_Q_ID));
            [now injection Hrows as _ <-|].
          destruct ((s <? MIN_SCORE) || (s >? MAX_SCORE));
            [now injection Hrows as _ <-|].
          now apply (IH _ Hrows). }
    rewrite Hone. split; [|now right].
    split; [discriminate | intros [? ?]; discriminate].
Qed.

(** *** The overall total *)

Lemma sum_over_insert (f : CategoryScore -> Z)
    (categories : gmap string CategoryScore) (cat_name : string)
    (cat : CategoryScore) :
  categories !! cat_name = None ->
  sum_over f (<[cat_name := cat]> categories)
  = f cat + sum_over f categories.
Proof.
  intros Hfresh. unfold sum_over.
  rewrite map_fold_insert_L; [reflexivity | intros; lia | assumption].
Qed.

Lemma sum_over_replace (f : CategoryScore -> Z)
    (categories : gmap string CategoryScore) (cat_name : string)
    (old new : CategoryScore) :
  categories !! cat_name = Some old ->
  sum_over f (<[cat_name := new]> categories)
  = sum_over f categories - f old + f new.
Proof.
  intros Hold.
  rewrite <- (insert_delete_id categories cat_name old Hold) at 2.
  rewrite <- (insert_delete_eq categories).
  rewrite !sum_over_insert by apply lookup_delete_eq. lia.
Qed.

Lemma sum_over_le (f g : CategoryScore -> Z)
    (categories : gmap string CategoryScore) :
  map_Forall (fun _ cat => f cat <= g cat) categories ->
  sum_over f categories <= sum_over g categories.
Proof.
  induction categories as [|cat_name cat categories Hfresh IH] using map_ind.
  - intros _. reflexivity.
  - intros Hall. apply map_Forall_insert in Hall as [Hcat Hall];
      [|assumption].
    rewrite !sum_over_insert by assumption. specialize (IH Hall). lia.
Qed.

Lemma sum_scores_insert (responses : gmap Z Z) (q_id s : Z) :
  responses !! q_id = None ->
  sum_scores (<[q_id := s]> responses) = s + sum_scores responses.
Proof.
  intros Hfresh. unfold sum_scores.
  rewrite map_fold_insert_L; [reflexivity | intros; lia | assumption].
Qed.

(** Adding a response moves one category. *)
Lemma with_answers_insert (responses : gmap Z Z) (q_id s : Z) :
  responses !! q_id = None -> 1 <= q_id <= 34 ->
  exists cat,
    initial_categories !! category_of q_id = Some cat
    /\ with_answers (<[q_id := s]> responses) <$> initial_categories
       = <[category_of q_id :=
             {| name := name cat;
                total := total (with_answers responses cat) + s;
                max_total := max_total cat;
                questions := questions cat |}]>
           (with_answers responses <$> initial_categories).
Proof.
  intros Hfresh Hrange.
  destruct (ScorerFacts.question_registered q_id Hrange)
    as (cat & Hcat & Hin).
  pose proof (ScorerFacts.initial_categories_facts _ _ Hcat)
    as (_ & _ & Hnodup & _).
  exists cat. split; [assumption|].
  apply map_eq. intros k.
  destruct (decide (k = category_of q_id)) as [->|Hne].
  - rewrite lookup_insert_eq, lookup_fmap, Hcat. fields.
    unfold with_answers. fields. do 2 f_equal.
    rewrite ScorerFacts.answered_insert_in by assumption. lia.
  - rewrite lookup_insert_ne by congruence. rewrite !lookup_fmap.
    destruct (initial_categories !! k) as [other|] eqn:Hother;
      fields; [|reflexivity].
    f_equal. unfold with_answers. f_equal.
    rewrite ScorerFacts.answered_insert_notin; [reflexivity|].
    intros Hmember.
    pose proof (ScorerFacts.initial_categories_facts _ _ Hother)
      as (_ & _ & _ & Hall).
    rewrite Forall_forall in Hall. apply Hne. symmetry.
    exact (Hall _ Hmember).
Qed.

Lemma overall_total_sum (responses : gmap Z Z) :
  valid responses ->
  sum_over total (with_answers responses <$> initial_categories)
  = sum_scores responses.
Proof.
  induction responses as [|q_id s responses Hfresh IH] using map_ind.
  - intros _.
    replace (with_answers ∅ <$> initial_categories) with initial_categories.
    + vm_compute. reflexivity.
    + apply map_eq. intros k. rewrite lookup_fmap.
      destruct (initial_categories !! k) as [cat|]; fields; [|reflexivity].
      now rewrite ScorerFacts.with_answers_empty.
  - intros Hvalid.
    destruct (ScorerFacts.valid_insert _ _ _ Hfresh Hvalid) as [Hrest Hrange].
    destruct (with_answers_insert responses q_id s Hfresh Hrange)
      as (cat & Hcat & ->).
    rewrite (sum_over_replace total _ _ (with_answers responses cat))
      by now rewrite lookup_fmap, Hcat.
    rewrite (IH Hrest), sum_scores_insert by assumption.
    fields. lia.
Qed.

Lemma answered_bounds (responses : gmap Z Z) (qs : list Z) :
  valid responses ->
  0 <= answered responses qs <= 3 * Z.of_nat (length qs).
Proof.
  intros Hvalid. induction qs as [|q qs IH]; [cbn; lia|].
  rewrite ScorerFacts.answered_cons. cbn [length].
  destruct (responses !! q) as [s|] eqn:Hq; cbn [default from_option id].
  - destruct (Hvalid q s Hq) as [_ Hs]. lia.
  - lia.
Qed.

Lemma category_bounds (responses : gmap Z Z) :
  valid responses ->
  map_Forall (fun _ cat => 0 <= total cat <= max_total cat)
             (with_answers responses <$> initial_categories).
Proof.
  intros Hvalid name cat Hlookup. rewrite lookup_fmap in Hlookup.
  destruct (initial_categories !! name) as [cat0|] eqn:Hcat0;
    [|discriminate].
  injection Hlookup as <-.
  pose proof (ScorerFacts.initial_categories_facts _ _ Hcat0)
    as (Htotal & Hmax & _).
  pose proof (answered_bounds responses (questions cat0) Hvalid).
  unfold with_answers. fields. lia.
Qed.

Lemma sum_over_zero (categories : gmap string CategoryScore) :
  sum_over (fun _ => 0) categories = 0.
Proof.
  induction categories as [|cat_name cat categories Hfresh IH] using map_ind.
  - reflexivity.
  - rewrite sum_over_insert by assumption. lia.
Qed.

Lemma overall_total_bounds (responses : gmap Z Z) :
  valid responses ->
  0 <= sum_over total (with_answers responses <$> initial_categories) <= 102.
Proof.
  intros Hvalid. pose proof (category_bounds responses Hvalid) as Hall.
  split.
  - rewrite <- (sum_over_zero (with_answers responses <$> initial_categories)).
    apply sum_over_le. intros name cat Hcat. now apply (Hall name cat).
  - rewrite <- (ScorerFacts.sum_over_max_with_answers responses).
    apply sum_over_le. intros name cat Hcat. now apply (Hall name cat).
Qed.

Lemma compute_overall_score_valid (responses : gmap Z Z) :
  compute_overall_score (with_answers responses <$> initial_categories)
  = (sum_over total (with_answers responses <$> initial_categories),
     102,
     normalise
       (sum_over total (with_answers responses <$> initial_categories))).
Proof.
  unfold compute_overall_score, normalise.
  now rewrite ScorerFacts.sum_over_max_with_answers.
Qed.

(** X11: the overall total is the sum of the scores of the responses, and it
    lies between 0 and the overall maximum, 102. *)
Theorem overall_total_is_sum (responses : gmap Z Z) :
  valid responses ->
  exists s,
    summarise responses = ([], Return s)
    /\ overall_total s = sum_scores responses
    /\ overall_max s = 102
    /\ 0 <= overall_total s <= 102.
Proof.
  intros Hvalid. eexists. split; [exact (summarise_valid _ Hvalid)|].
  cbv zeta. rewrite compute_overall_score_valid. cbn [overall_total overall_max].
  split; [now apply overall_total_sum|]. split; [reflexivity|].
  now apply overall_total_bounds.
Qed.

Lemma overall_total_is_sum_witness :
  exists s,
    summarise {[ 5 := 2; 20 := 3 ]} = ([], Return s)
    /\ overall_total s = 5.
Proof.
  destruct (overall_total_is_sum {[ 5 := 2; 20 := 3 ]})
    as (s & Hs & Htotal & _).
  - change (map_Forall (fun q_id s => 1 <= q_id <= 34 /\ 0 <= s <= 3)
                       ({[ 5 := 2; 20 := 3 ]} : gmap Z Z)).
    compute_done.
  - exists s. split; [assumption|]. rewrite Htotal. reflexivity.
Defined.

(** *** Maturity by raw total *)

Lemma band_table :
  forall points, 0 <= points <= 102 ->
    classify_maturity (normalise points) = band points
    /\ SFleb PyFloat.zero (normalise points) = true
    /\ PyFloat.le_int (normalise points) 30 = true.
Proof.
  assert (Hall : forallb
                   (fun points =>
                      String.eqb (classify_maturity (normalise points))
                                 (band points)
                      && SFleb PyFloat.zero (normalise points)
                      && PyFloat.le_int (normalise points) 30)
                   (seqZ 0 103) = true)
    by (vm_compute; reflexivity).
  rewrite forallb_forall in Hall. intros points Hrange.
  assert (Hin : In points (seqZ 0 103))
    by (apply list_elem_of_In, elem_of_seqZ; lia).
  apply Hall in Hin.
  apply andb_true_iff in Hin as [Hin Hle].
  apply andb_true_iff in Hin as [Hband Hge].
  apply String.eqb_eq in Hband. auto.
Qed.

(** X12: for valid responses the maturity level is decided by the raw total
    alone: Initial up to 34 points, Basic from 35 to 61, Intermediate from
    62 to 85 and Advanced from 86 on; the normalised score lies between
    0.0 and 30.0. *)
Theorem maturity_by_total (responses : gmap Z Z) :
  valid responses ->
  exists s,
    summarise responses = ([], Return s)
    /\ normalized s = normalise (overall_total s)
    /\ maturity s = band (overall_total s)
    /\ SFleb PyFloat.zero (normalized s) = true
    /\ PyFloat.le_int (normalized s) 30 = true.
Proof.
  intros Hvalid. eexists. split; [exact (summarise_valid _ Hvalid)|].
  cbv zeta. rewrite compute_overall_score_valid.
  cbn [overall_total normalized maturity].
  split; [reflexivity|].
  now apply band_table, overall_total_bounds.
Qed.

Lemma maturity_by_total_witness :
  exists s,
    summarise (uniform_responses 1) = ([], Return s)
    /\ maturity s = band (overall_total s).
Proof.
  destruct (maturity_by_total (uniform_responses 1))
    as (s & Hs & _ & Hband & _).
  - apply ScorerFacts.uniform_valid. lia.
  - exists s. split; assumption.
Defined.

(** *** The percentage of a category *)

Lemma percentage_table :
  forall cat_name cat0, initial_categories !! cat_name = Some cat0 ->
    forall points, 0 <= points <= max_total cat0 ->
      let p := percentage {| name := name cat0; total := points;
                             max_total := max_total cat0;
                             questions := questions cat0 |} in
      SFleb PyFloat.zero p = true
      /\ PyFloat.le_int p 100 = true
      /\ (SFeqb p (PyFloat.of_int 100) = true <-> points = max_total cat0).
Proof.
  assert (Hall : forallb
            (fun entry : string * CategoryScore =>
               forallb
                 (fun points =>
                    let p := percentage
                               {| name := name (snd entry); total := points;
                                  max_total := max_total (snd entry);
                                  questions := questions (snd entry) |} in
                    SFleb PyFloat.zero p && PyFloat.le_int p 100
                    && Bool.eqb (SFeqb p (PyFloat.of_int 100))
                                (points =? max_total (snd entry)))
                 (seqZ 0 (max_total (snd entry) + 1)))
            (map_to_list initial_categories) = true)
    by (vm_compute; reflexivity).
  rewrite forallb_forall in Hall.
  intros cat_name cat0 Hcat0 points Hrange.
  apply elem_of_map_to_list, list_elem_of_In, Hall in Hcat0.
  cbn [snd] in Hcat0. rewrite forallb_forall in Hcat0.
  assert (Hin : In points (seqZ 0 (max_total cat0 + 1)))
    by (apply list_elem_of_In, elem_of_seqZ; lia).
  apply Hcat0 in Hin. cbv zeta in Hin |- *.
  apply andb_true_iff in Hin as [Hin Heq].
  apply andb_true_iff in Hin as [Hge Hle].
  apply Bool.eqb_prop in Heq.
  split; [assumption|]. split; [assumption|].
  rewrite Heq. apply Z.eqb_eq.
Qed.

(** X13: for valid responses the percentage of every category lies between 0.0
    and 100.0, and it is 100.0 exactly when the category has its maximum
    total. *)
Theorem percentage_range (responses : gmap Z Z) :
  valid responses ->
  exists categories,
    build_category_scores responses = ([], Return categories)
    /\ forall cat_name cat, categories !! cat_name = Some cat ->
         SFleb PyFloat.zero (percentage cat) = true
         /\ PyFloat.le_int (percentage cat) 100 = true
         /\ (SFeqb (percentage cat) (PyFloat.of_int 100) = true
             <-> total cat = max_total cat).
Proof.
  intros Hvalid. eexists.
  split; [exact (ScorerFacts.build_category_scores_eq _ Hvalid)|].
  intros cat_name cat Hcat.
  pose proof (category_bounds responses Hvalid cat_name cat Hcat) as Hbounds.
  rewrite lookup_fmap in Hcat.
  destruct (initial_categories !! cat_name) as [cat0|] eqn:Hcat0;
    [|discriminate].
  injection Hcat as <-.
  exact (percentage_table cat_name cat0 Hcat0
           (total (with_answers responses cat0)) Hbounds).
Qed.

Lemma percentage_range_witness :
  exists categories,
    build_category_scores (uniform_responses 3) = ([], Return categories)
    /\ forall cat_name cat, categories !! cat_name = Some cat ->
         PyFloat.le_int (percentage cat) 100 = true.
Proof.
  destruct (percentage_range (uniform_responses 3))
    as (categories & Hbuild & Hall).
  - apply ScorerFacts.uniform_valid. lia.
  - exists categories. split; [assumption|].
    intros cat_name cat Hcat. exact (proj1 (proj2 (Hall cat_name cat Hcat))).
Defined.


End ScorerMoreFacts.

(** ** More on the RACI generator *)

Module RaciMoreFacts.
Import Py Raci RaciMore.

(** *** Loading *)

Section Loading.
Variable open_yaml : string -> yaml_file.

Lemma load_yaml_returns_inv (input : string) (printed : list string)
    (data : yaml) :
  load_yaml open_yaml input = (printed, Return data) ->
  printed = []
  /\ exists entries roles tasks,
       open_yaml input = Document (YDict entries)
       /\ data = YDict entries
       /\ lookup_key entries "roles" = Some (YList roles)
       /\ lookup_key entries "tasks" = Some (YList tasks).
Proof.
  - intros Hload.
    destruct (RaciFacts.load_yaml_returns _ _ _ _ Hload)
      as (doc & Hopen & Hdata & Hroles & Htasks).
    assert (Hdoc : data = doc).
    { rewrite Hdata in *. unfold or_else in *.
      destruct (truthy doc); [reflexivity | discriminate]. }
    subst doc. destruct data as [| | | | | |entries]; try discriminate.
    cbn [has_key] in Hroles, Htasks.
    apply bool_decide_eq_true in Hroles as [roles Hroles].
    apply bool_decide_eq_true in Htasks as [tasks Htasks].
    unfold load_yaml in Hload. rewrite Hopen, <- Hdata in Hload.
    cbn [contains_key] in Hload.
    rewrite PyFacts.bind_ret, Hroles, Htasks in Hload.
    rewrite !bool_decide_eq_true_2 in Hload by eauto.
    cbn [negb subscript] in Hload.
    rewrite RaciFacts.fmap_ret, !PyFacts.bind_ret in Hload.
    cbn [negb subscript] in Hload.
    rewrite Hroles, Htasks, PyFacts.bind_ret in Hload.
    destruct roles; cbn [is_list negb] in Hload; try discriminate.
    rewrite RaciFacts.fmap_ret, PyFacts.bind_ret in Hload.
    destruct tasks; cbn [is_list negb] in Hload; try discriminate.
    injection Hload as <-. split; [reflexivity|]. eauto 10.
Qed.

(** X14: [load_yaml] returns exactly the documents that are mappings with a
    list under 'roles' and a list under 'tasks'; it returns the mapping as
    loaded and prints nothing. *)
Theorem load_yaml_returns_iff (input : string) (printed : list string)
    (data : yaml) :
  load_yaml open_yaml input = (printed, Return data)
  <-> printed = []
      /\ exists entries roles tasks,
           open_yaml input = Document (YDict entries)
           /\ data = YDict entries
           /\ lookup_key entries "roles" = Some (YList roles)
           /\ lookup_key entries "tasks" = Some (YList tasks).
Proof.
  split; [apply load_yaml_returns_inv|].
  - intros (-> & entries & roles & tasks & Hopen & -> & Hroles & Htasks).
    unfold load_yaml. rewrite Hopen. unfold or_else.
    destruct entries as [|entry entries]; [discriminate|]. cbn [truthy].
    cbn [contains_key]. rewrite PyFacts.bind_ret, Hroles, Htasks.
    rewrite !bool_decide_eq_true_2 by eauto. cbn [negb].
    rewrite RaciFacts.fmap_ret, !PyFacts.bind_ret. cbn [negb subscript].
    rewrite Hroles, Htasks, PyFacts.bind_ret. cbn [is_list negb].
    now rewrite RaciFacts.fmap_ret, PyFacts.bind_ret.
Qed.

End Loading.

(** *** How a run can end *)

Lemma tame_ret {A} (a : A) : tame (mret a : M string A).
Proof. exact I. Qed.

Lemma tame_bind {A B} (c : M string A) (k : A -> M string B) :
  tame c -> (forall a, tame (k a)) -> tame (c ≫= k).
Proof.
  destruct c as [[|line printed] [a|e]]; try contradiction.
  - intros _ Hk. specialize (Hk a).
    unfold mbind, M_bind, bind. now destruct (k a) as [printed' r].
  - now destruct e.
Qed.

Lemma tame_fmap {A B} (f : A -> B) (c : M string A) :
  tame c -> tame (f <$> c).
Proof. intros Hc. apply (tame_bind c); [assumption | intros a; exact I]. Qed.

Lemma tame_get (obj : yaml) (key : string) (fallback : yaml) :
  tame (get obj key fallback).
Proof. now destruct obj. Qed.

Lemma tame_iterate (v : yaml) : tame (iterate v).
Proof. now destruct v. Qed.

Lemma tame_style_cell (value : yaml) : tame (style_cell value).
Proof. unfold style_cell. now destruct (or_else value (YStr "")). Qed.

Lemma tame_ws_append (row : list yaml) : tame (ws_append row).
Proof. unfold ws_append. now destruct (forallb storable row). Qed.

Lemma tame_for_each {A B} (body : A -> M string B) (items : list A) :
  (forall x, tame (body x)) -> tame (for_each body items).
Proof.
  intros Hbody. induction items as [|x items IH]; [exact I|].
  cbn [for_each]. apply tame_bind; [apply Hbody|]. intros y.
  apply tame_bind; [exact IH|]. intros ys. exact I.
Qed.

Section Running.
Variable str : yaml -> string.
Variable open_yaml : string -> yaml_file.

Lemma tame_task_row (roles : list string) (task : yaml) :
  tame (task_row str roles task).
Proof.
  unfold task_row. apply tame_bind; [apply tame_fmap, tame_get|]. intros name.
  apply tame_bind; [apply tame_fmap, tame_get|]. intros assignments.
  apply tame_bind; [|intros values; apply tame_ws_append].
  apply tame_for_each. intros role. apply tame_get.
Qed.

Lemma tame_build_raci_excel (data : yaml) (output_path : string) :
  tame (build_raci_excel str data output_path).
Proof.
  unfold build_raci_excel.
  apply tame_bind.
  { apply tame_fmap, tame_bind; [apply tame_get | apply tame_iterate]. }
  intros roles. apply tame_bind; [apply tame_get|]. intros tasks.
  apply tame_bind; [apply tame_iterate|]. intros task_list.
  apply tame_bind; [apply tame_for_each, tame_task_row|]. intros task_rows.
  apply tame_bind; [|intros cell_fills; exact I].
  apply tame_for_each. intros row. apply tame_for_each, tame_style_cell.
Qed.

(** What is saved is saved at the path asked for. *)
Lemma build_raci_excel_path (data : yaml) (output_path : string)
    (printed : list string) (saved : string * worksheet) :
  build_raci_excel str data output_path = (printed, Return saved) ->
  fst saved = output_path.
Proof.
  unfold build_raci_excel. intros H.
  repeat (apply RaciFacts.bind_returns in H as (? & ? & ? & _ & H)).
  now injection H as _ <-.
Qed.

(** A failure of [load_yaml]: [sys.exit(1)] after one message on
    standard error, or a [TypeError] of a document that is not a
    mapping. *)
Lemma load_yaml_raises (input : string) (printed : list string)
    (e : exn string) :
  load_yaml open_yaml input = (printed, Raise e) ->
  (e = SystemExit 1 /\ exists message, printed = [message])
  \/ (printed = [] /\ exists msg, e = TypeError msg).
Proof.
  unfold load_yaml.
  destruct (open_yaml input) as [|err|doc].
  - intros H. injection H as <- <-. left. eauto.
  - intros H. injection H as <- <-. left. eauto.
  - destruct (or_else doc (YDict [])) as [| | | |s|items|entries];
      cbn [contains_key];
      try (intros H; injection H as <- <-; right; eauto; fail);
      rewrite PyFacts.bind_ret.
    + destruct (PyStr.contains "roles" s);
        [|intros H; injection H as <- <-; left; eauto].
      cbn [negb]. rewrite RaciFacts.fmap_ret, PyFacts.bind_ret.
      destruct (PyStr.contains "tasks" s); intros H; injection H as <- <-;
        [right | left]; eauto.
    + destruct (existsb (is_str "roles") items);
        [|intros H; injection H as <- <-; left; eauto].
      cbn [negb]. rewrite RaciFacts.fmap_ret, PyFacts.bind_ret.
      destruct (existsb (is_str "tasks") items); intros H;
        injection H as <- <-; [right | left]; eauto.
    + destruct (lookup_key entries "roles") as [roles|] eqn:Hroles.
      2:{ rewrite bool_decide_eq_false_2 by (intros [? ?]; discriminate).
          intros H. injection H as <- <-. left. eauto. }
      rewrite bool_decide_eq_true_2 by eauto. cbn [negb].
      rewrite RaciFacts.fmap_ret, PyFacts.bind_ret.
      destruct (lookup_key entries "tasks") as [tasks|] eqn:Htasks.
      2:{ rewrite bool_decide_eq_false_2 by (intros [? ?]; discriminate).
          intros H. injection H as <- <-. left. eauto. }
      rewrite bool_decide_eq_true_2 by eauto. cbn [negb subscript].
      rewrite Hroles, PyFacts.bind_ret.
      destruct (is_list roles);
        [|intros H; injection H as <- <-; left; eauto].
      cbn [negb]. rewrite Htasks, RaciFacts.fmap_ret, PyFacts.bind_ret.
      destruct (is_list tasks); [discriminate|].
      intros H. injection H as <- <-. left. eauto.
Qed.

Lemma main_ways (input output : string) :
  (exists sheet,
      main str open_yaml input output = ([], Return (output, sheet)))
  \/ (exists message,
        main str open_yaml input output = ([message], Raise (SystemExit 1)))
  \/ (exists e,
        main str open_yaml input output = ([], Raise e)
        /\ forall code, e <> SystemExit code).
Proof.
  unfold main.
  destruct (load_yaml open_yaml input) as [printed [data|e]] eqn:Hload.
  - apply load_yaml_returns_inv in Hload as [-> _].
    change ([], Return data) with (mret data : M string yaml).
    rewrite PyFacts.bind_ret.
    pose proof (tame_build_raci_excel data output) as Htame.
    pose proof (build_raci_excel_path data output) as Hpath.
    destruct (build_raci_excel str data output)
      as [[|message printed] [[path sheet]|e]]; try contradiction.
    + left. exists sheet. specialize (Hpath [] _ eq_refl).
      cbn in Hpath. now subst path.
    + right. right. exists e. split; [reflexivity|].
      destruct e as [v|key|msg|msg|code]; try contradiction; discriminate.
  - rewrite PyFacts.bind_raise.
    apply load_yaml_raises in Hload
      as [[-> [message ->]] | [-> [msg ->]]].
    + right. left. now exists message.
    + right. right. exists (TypeError msg). split; [reflexivity|discriminate].
Qed.

(** X15: the generator prints to standard error only when it gives up
    through [sys.exit], and then it has called [print] exactly once, for
    one message, and the code is 1.  A run that reaches the saving of the
    sheet has printed nothing there and saves at the output path, and a
    run that ends in any other exception has printed nothing either. *)
Theorem raci_main_outcomes (input output : string)
    (printed : list string) (outcome : result string (string * worksheet)) :
  main str open_yaml input output = (printed, outcome) ->
  match outcome with
  | Return saved => printed = [] /\ fst saved = output
  | Raise (SystemExit code) =>
      code = 1%Z /\ exists message, printed = [message]
  | Raise _ => printed = []
  end.
Proof.
  intros Hmain.
  destruct (main_ways input output)
    as [(sheet & H)|[(message & H)|(e & H & Hother)]];
    rewrite H in Hmain; injection Hmain as <- <-.
  - split; reflexivity.
  - split; [reflexivity|]. now exists message.
  - destruct e as [v|key|msg|msg|code]; try reflexivity.
    now destruct (Hother code).
Qed.

End Running.

Lemma raci_main_outcomes_witness :
  (1 = 1)%Z
  /\ exists message,
       ["Error: input YAML not found: raci_input.yaml"] = [message].
Proof.
  exact (raci_main_outcomes text_of (fun _ => NotFound)
           "raci_input.yaml" "raci.xlsx" _ _ eq_refl).
Defined.

(** *** The sheet *)

Section Sheet.
Variable str : yaml -> string.

(** What a saved sheet is made of. *)
Lemma build_raci_excel_inv (entries : list (yaml * yaml))
    (role_items tasks : list yaml) (output_path : string)
    (printed : list string) (saved : string * worksheet) :
  lookup_key entries "roles" = Some (YList role_items) ->
  lookup_key entries "tasks" = Some (YList tasks) ->
  build_raci_excel str (YDict entries) output_path
  = (printed, Return saved) ->
  exists task_rows cell_fills,
    saved = (output_path,
             {| title := "RACI Matrix";
                rows := (YStr "Task / Activity"
                           :: (YStr <$> (str <$> role_items)))
                          :: task_rows;
                fills := cell_fills |})
    /\ Forall2 (fun task row =>
                  exists printed',
                    task_row str (str <$> role_items) task
                    = (printed', Return row))
               tasks task_rows
    /\ Forall2 (fun row fill_row =>
                  exists printed',
                    for_each style_cell (tail row)
                    = (printed', Return fill_row))
               task_rows cell_fills.
Proof.
  intros Hroles Htasks. unfold build_raci_excel. cbn [get].
  rewrite Hroles, Htasks. cbn [default from_option id].
  rewrite PyFacts.bind_ret. cbn [iterate].
  rewrite RaciFacts.fmap_ret, !PyFacts.bind_ret. cbn [iterate].
  rewrite PyFacts.bind_ret. intros Hbuild.
  apply RaciFacts.bind_returns in Hbuild
    as (p1 & task_rows & p2 & Hrows & Hbuild).
  apply RaciFacts.bind_returns in Hbuild
    as (p3 & cell_fills & p4 & Hfills & Hret).
  injection Hret as _ <-.
  exists task_rows, cell_fills. split; [reflexivity|].
  split; [now apply RaciFacts.for_each_inv with p1
         | now apply RaciFacts.for_each_inv with p3].
Qed.

(** A row that the loop body returns: the task is a mapping with an
    assignments mapping, or there are no roles, and the row is the name
    cell followed by one cell for every role. *)
Lemma task_row_inv (roles : list string) (task : yaml)
    (printed : list string) (row : list yaml) :
  task_row str roles task = (printed, Return row) ->
  length row = S (length roles)
  /\ (roles <> [] -> exists assignments,
        assignments_of task = Some assignments
        /\ row = row_of str roles task).
Proof.
  unfold task_row. intros Hrow.
  apply RaciFacts.bind_returns in Hrow as (p1 & name & p2 & Hname & Hrow).
  apply RaciFacts.bind_returns in Hrow as (p3 & found & p4 & Hfound & Hrow).
  apply RaciFacts.bind_returns in Hrow as (p5 & values & p6 & Hvalues & Hret).
  apply RaciFacts.ws_append_returns in Hret as (_ & -> & _).
  destruct task as [| | | | | |fields]; try discriminate.
  cbn [get] in Hfound. rewrite RaciFacts.fmap_ret in Hfound.
  injection Hfound as _ <-.
  pose proof (RaciFacts.for_each_inv _ _ _ _ Hvalues) as Hall.
  split; [cbn [length]; now rewrite (Forall2_length _ _ _ Hall)|].
  intros Hroles. unfold assignments_of, row_of.
  cbn [get] in Hname. rewrite RaciFacts.fmap_ret in Hname.
  injection Hname as _ <-.
  destruct (or_else (default (YDict []) (lookup_key fields "assignments"))
                    (YDict [])) as [| | | | | |assignments] eqn:Hassign;
    try (destruct roles as [|role roles]; [congruence|];
         apply Forall2_cons_inv_l in Hall as (? & ? & [? Hget] & _);
         discriminate).
  exists assignments. split; [reflexivity|].
  unfold assignments_of. rewrite Hassign. f_equal.
  clear -Hall. revert values Hall.
  induction roles as [|role roles IH]; intros values Hall.
  - now apply Forall2_nil_inv_l in Hall as ->.
  - apply Forall2_cons_inv_l in Hall as (v & vs & [? Hget] & Hall & ->).
    cbn [get] in Hget. injection Hget as _ <-.
    cbn [fmap list_fmap]. f_equal. now apply IH.
Qed.

(** X16: whenever a sheet is saved it is rectangular: the header names the
    column of the tasks and then every role, there is one row for every
    task, every row has one cell for the name and one for every role, and
    every row has a fill entry for each of its role cells. *)
Theorem saved_sheet_shape (entries : list (yaml * yaml))
    (role_items tasks : list yaml) (output_path : string)
    (printed : list string) (saved : string * worksheet) :
  lookup_key entries "roles" = Some (YList role_items) ->
  lookup_key entries "tasks" = Some (YList tasks) ->
  build_raci_excel str (YDict entries) output_path
  = (printed, Return saved) ->
  fst saved = output_path
  /\ head (rows (snd saved))
     = Some (YStr "Task / Activity" :: (YStr <$> (str <$> role_items)))
  /\ length (rows (snd saved)) = S (length tasks)
  /\ Forall (fun row => length row = S (length role_items))
            (rows (snd saved))
  /\ length (fills (snd saved)) = length tasks
  /\ Forall (fun fill_row => length fill_row = length role_items)
            (fills (snd saved)).
Proof.
  intros Hroles Htasks Hbuild.
  destruct (build_raci_excel_inv _ _ _ _ _ _ Hroles Htasks Hbuild)
    as (task_rows & cell_fills & -> & Hrows & Hfills).
  cbn [fst snd rows fills head].
  assert (Hlen : Forall (fun row => length row = S (length role_items))
                        task_rows).
  { apply Forall_forall. intros row Hin.
    apply list_elem_of_lookup in Hin as [j Hj].
    destruct (Forall2_lookup_r _ _ _ _ _ Hrows Hj)
      as (task & _ & printed' & Hrow).
    apply task_row_inv in Hrow as [Hlength _].
    now rewrite Hlength, length_fmap. }
  split; [reflexivity|]. split; [reflexivity|].
  split; [cbn [length]; now rewrite (Forall2_length _ _ _ Hrows)|].
  split.
  { constructor; [|assumption]. cbn [length]. now rewrite !length_fmap. }
  split.
  { now rewrite <- (Forall2_length _ _ _ Hfills),
                   (Forall2_length _ _ _ Hrows). }
  apply Forall_forall. intros fill_row Hin.
  apply list_elem_of_lookup in Hin as [j Hj].
  destruct (Forall2_lookup_r _ _ _ _ _ Hfills Hj)
    as (row & Hrow & printed' & Hstyle).
  apply RaciFacts.for_each_inv, Forall2_length in Hstyle.
  rewrite <- Hstyle.
  rewrite Forall_forall in Hlen.
  specialize (Hlen row (list_elem_of_lookup_2 _ _ _ Hrow)).
  destruct row as [|cell row]; [discriminate|].
  cbn [tail length] in *. lia.
Qed.

Lemma style_cell_returns (value : yaml) (printed : list string)
    (cell_fill : option fill) :
  style_cell value = (printed, Return cell_fill) ->
  plain_cell value = true /\ cell_fill = fill_of value.
Proof.
  unfold style_cell, plain_cell, fill_of.
  destruct (or_else value (YStr "")); try discriminate.
  intros H. injection H as _ <-. split; reflexivity.
Qed.

(** X17: whenever a sheet is saved, the row appended for a task has, in
    the column of a role, what the task assigns to the role, or the empty
    string when it assigns nothing; and when that value is no text, or is
    ASCII text of at most 32767 characters, the fill of the cell is the
    one of the value: that of R, A, C or I when the text, stripped and in
    upper case, is that letter, and none otherwise. *)
Theorem saved_cell_and_fill (entries : list (yaml * yaml))
    (role_items tasks : list yaml) (output_path : string)
    (j i : nat) (task : yaml) (assignments : list (yaml * yaml))
    (role : yaml) (printed : list string) (saved : string * worksheet) :
  lookup_key entries "roles" = Some (YList role_items) ->
  lookup_key entries "tasks" = Some (YList tasks) ->
  tasks !! j = Some task ->
  assignments_of task = Some assignments ->
  role_items !! i = Some role ->
  build_raci_excel str (YDict entries) output_path
  = (printed, Return saved) ->
  exists row fill_row cell_fill,
    rows (snd saved) !! S j = Some row
    /\ row !! S i = Some (cell_of assignments (str role))
    /\ fills (snd saved) !! j = Some fill_row
    /\ fill_row !! i = Some cell_fill
    /\ (kept_as_written (cell_of assignments (str role)) = true ->
        cell_fill = fill_of (cell_of assignments (str role))).
Proof.
  intros Hroles Htasks Htask Hassign Hrole Hbuild.
  destruct (build_raci_excel_inv _ _ _ _ _ _ Hroles Htasks Hbuild)
    as (task_rows & cell_fills & -> & Hrows & Hfills).
  cbn [snd rows fills].
  destruct (Forall2_lookup_l _ _ _ _ _ Hrows Htask)
    as (row & Hrow & printed' & Hbody).
  destruct (Forall2_lookup_l _ _ _ _ _ Hfills Hrow)
    as (fill_row & Hfill_row & printed'' & Hstyle).
  rewrite (RaciFacts.task_row_of _ _ _ _ Hassign) in Hbody.
  apply RaciFacts.ws_append_returns in Hbody as (_ & -> & _).
  assert (Hcells : tail (row_of str (str <$> role_items) task)
                   = cell_of assignments <$> (str <$> role_items)).
  { destruct task as [| | | | | |fields]; try discriminate.
    unfold row_of. now rewrite Hassign. }
  assert (Hcell : (cell_of assignments <$> (str <$> role_items)) !! i
                  = Some (cell_of assignments (str role))).
  { now rewrite !list_lookup_fmap, Hrole. }
  rewrite Hcells in Hstyle. apply RaciFacts.for_each_inv in Hstyle.
  destruct (Forall2_lookup_l _ _ _ _ _ Hstyle Hcell)
    as (cell_fill & Hcell_fill & printed3 & Hone).
  apply style_cell_returns in Hone as [_ ->].
  exists (row_of str (str <$> role_items) task), fill_row,
    (fill_of (cell_of assignments (str role))).
  split; [now rewrite lookup_cons|].
  split.
  { rewrite <- Hcell, <- Hcells.
    now destruct (row_of str (str <$> role_items) task). }
  split; [assumption|]. split; [exact Hcell_fill|]. reflexivity.
Qed.

(** X18: a task that is not a mapping, or whose assignments are not a mapping,
    stops the whole run as soon as there is a role: no sheet is saved,
    whatever the other tasks are. *)
Theorem malformed_task_saves_nothing (entries : list (yaml * yaml))
    (role_items tasks : list yaml) (output_path : string)
    (j : nat) (task : yaml) :
  lookup_key entries "roles" = Some (YList role_items) ->
  lookup_key entries "tasks" = Some (YList tasks) ->
  role_items <> [] ->
  tasks !! j = Some task ->
  assignments_of task = None ->
  forall printed saved,
    build_raci_excel str (YDict entries) output_path
    <> (printed, Return saved).
Proof.
  intros Hroles Htasks Hsome Htask Hassign printed saved Hbuild.
  destruct (build_raci_excel_inv _ _ _ _ _ _ Hroles Htasks Hbuild)
    as (task_rows & cell_fills & _ & Hrows & _).
  destruct (Forall2_lookup_l _ _ _ _ _ Hrows Htask)
    as (row & _ & printed' & Hbody).
  apply task_row_inv in Hbody as [_ Hwith].
  destruct Hwith as (assignments & Hfound & _).
  - destruct role_items; [congruence | discriminate].
  - congruence.
Qed.

(** X19: a cell that is neither text nor false (a number, [True], a list)
    stops the run too: no sheet is saved. *)
Theorem odd_cell_saves_nothing (entries : list (yaml * yaml))
    (role_items tasks : list yaml) (output_path : string)
    (j i : nat) (task : yaml) (assignments : list (yaml * yaml))
    (role : yaml) :
  lookup_key entries "roles" = Some (YList role_items) ->
  lookup_key entries "tasks" = Some (YList tasks) ->
  tasks !! j = Some task ->
  assignments_of task = Some assignments ->
  role_items !! i = Some role ->
  plain_cell (cell_of assignments (str role)) = false ->
  forall printed saved,
    build_raci_excel str (YDict entries) output_path
    <> (printed, Return saved).
Proof.
  intros Hroles Htasks Htask Hassign Hrole Hodd printed saved Hbuild.
  destruct (build_raci_excel_inv _ _ _ _ _ _ Hroles Htasks Hbuild)
    as (task_rows & cell_fills & _ & Hrows & Hfills).
  destruct (Forall2_lookup_l _ _ _ _ _ Hrows Htask)
    as (row & Hrow & printed' & Hbody).
  destruct (Forall2_lookup_l _ _ _ _ _ Hfills Hrow)
    as (fill_row & _ & printed'' & Hstyle).
  rewrite (RaciFacts.task_row_of _ _ _ _ Hassign) in Hbody.
  apply RaciFacts.ws_append_returns in Hbody as (_ & -> & _).
  assert (Hcells : tail (row_of str (str <$> role_items) task)
                   = cell_of assignments <$> (str <$> role_items)).
  { destruct task as [| | | | | |fields]; try discriminate.
    unfold row_of. now rewrite Hassign. }
  rewrite Hcells in Hstyle. apply RaciFacts.for_each_inv in Hstyle.
  assert (Hcell : (cell_of assignments <$> (str <$> role_items)) !! i
                  = Some (cell_of assignments (str role)))
    by now rewrite !list_lookup_fmap, Hrole.
  destruct (Forall2_lookup_l _ _ _ _ _ Hstyle Hcell)
    as (cell_fill & _ & printed3 & Hone).
  apply style_cell_returns in Hone as [Hplain _]. congruence.
Qed.


End Sheet.

Lemma saved_sheet_shape_witness :
  exists sheet,
    build_raci_excel text_of sample_raci "raci.xlsx"
    = ([], Return ("raci.xlsx", sheet))
    /\ length (rows sheet) = 2%nat
    /\ Forall (fun row => length row = 3%nat) (rows sheet).
Proof.
  assert (Hbuild : exists sheet,
             build_raci_excel text_of sample_raci "raci.xlsx"
             = ([], Return ("raci.xlsx", sheet)))
    by (eexists; reflexivity).
  destruct Hbuild as [sheet Hbuild]. exists sheet.
  split; [exact Hbuild|].
  destruct (saved_sheet_shape text_of sample_entries sample_roles
              [sample_task] _ _ _ eq_refl eq_refl Hbuild)
    as (_ & _ & Hrows & Hcells & _).
  split; [exact Hrows | exact Hcells].
Defined.


Lemma saved_cell_and_fill_witness :
  exists sheet row fill_row,
    build_raci_excel text_of (YDict sample_entries) "raci.xlsx"
    = ([], Return ("raci.xlsx", sheet))
    /\ rows sheet !! 1%nat = Some row
    /\ row !! 1%nat = Some (YStr "A")
    /\ fills sheet !! 0%nat = Some fill_row
    /\ fill_row !! 0%nat = Some (Some fill_A).
Proof.
  assert (Hbuild : exists sheet,
             build_raci_excel text_of (YDict sample_entries) "raci.xlsx"
             = ([], Return ("raci.xlsx", sheet)))
    by (eexists; reflexivity).
  destruct Hbuild as [sheet Hbuild].
  destruct (saved_cell_and_fill text_of sample_entries sample_roles
              [sample_task] "raci.xlsx" 0 0 sample_task
              [(YStr "IR Lead", YStr "A")] (YStr "IR Lead") [] _
              eq_refl eq_refl eq_refl eq_refl eq_refl Hbuild)
    as (row & fill_row & cell_fill & Hrow & Hcell & Hfills & Hfill & Hkept).
  exists sheet, row, fill_row. repeat split; try assumption.
  now rewrite Hfill, (Hkept eq_refl).
Defined.

Lemma malformed_task_saves_nothing_witness :
  assignments_of (YStr "Incident Logging") = None
  /\ forall printed saved,
       build_raci_excel text_of (YDict sample_with_text_task) "raci.xlsx"
       <> (printed, Return saved).
Proof.
  split; [reflexivity|].
  apply (malformed_task_saves_nothing text_of sample_with_text_task
           sample_roles [sample_task; YStr "Incident Logging"] "raci.xlsx"
           1 (YStr "Incident Logging")); try reflexivity.
  discriminate.
Defined.

Lemma odd_cell_saves_nothing_witness :
  plain_cell (YInt 1) = false
  /\ forall printed saved,
       build_raci_excel text_of (YDict sample_with_number) "raci.xlsx"
       <> (printed, Return saved).
Proof.
  split; [reflexivity|].
  apply (odd_cell_saves_nothing text_of sample_with_number
           sample_roles [numbered_task] "raci.xlsx" 0 0 numbered_task
           [(YStr "IR Lead", YInt 1)] (YStr "IR Lead")); reflexivity.
Defined.

(** *** Whole runs *)

Section WholeRuns.
Variable str : yaml -> string.
Variable open_yaml : string -> yaml_file.

(** X20: when the document is a mapping with both keys but 'roles' or 'tasks'
    is not a list, the generator prints its second message and ends with
    [sys.exit(1)]; nothing is saved. *)
Theorem not_lists_exits_1 (input output : string)
    (entries : list (yaml * yaml)) (roles tasks : yaml) :
  open_yaml input = Document (YDict entries) ->
  lookup_key entries "roles" = Some roles ->
  lookup_key entries "tasks" = Some tasks ->
  is_list roles = false \/ is_list tasks = false ->
  main str open_yaml input output
  = (["Error: 'roles' must be a list and 'tasks' must be a list."],
     Raise (SystemExit 1))
  /\ exit_status (main str open_yaml input output) = 1%Z.
Proof.
  intros Hopen Hroles Htasks Hnot.
  assert (Hmain : main str open_yaml input output
            = (["Error: 'roles' must be a list and 'tasks' must be a list."],
               Raise (SystemExit 1))).
  { unfold main, load_yaml. rewrite Hopen. unfold or_else.
    destruct entries as [|entry entries]; [discriminate|]. cbn [truthy].
    cbn [contains_key]. rewrite PyFacts.bind_ret, Hroles, Htasks.
    rewrite !bool_decide_eq_true_2 by eauto. cbn [negb].
    rewrite RaciFacts.fmap_ret, !PyFacts.bind_ret. cbn [negb subscript].
    rewrite Hroles, Htasks, PyFacts.bind_ret.
    destruct (is_list roles); cbn [negb].
    - rewrite RaciFacts.fmap_ret, PyFacts.bind_ret.
      destruct Hnot as [Hr|Ht]; [discriminate | now rewrite Ht].
    - reflexivity. }
  rewrite Hmain. split; reflexivity.
Qed.


End WholeRuns.

Lemma not_lists_exits_1_witness :
  exit_status (main text_of (fun _ => Document (YDict sample_with_text_roles))
                    "raci_input.yaml" "raci.xlsx") = 1%Z.
Proof.
  apply (not_lists_exits_1 text_of
           (fun _ => Document (YDict sample_with_text_roles))
           "raci_input.yaml" "raci.xlsx" sample_with_text_roles
           (YStr "IR Lead") (YList [sample_task]));
    try reflexivity.
  now left.
Defined.


End RaciMoreFacts.
